(** * patatune: the objective evaluation subsystem

    A shallow embedding of [src/patatune/objective.py]: the [Objective]
    constructor with its validation, the NumPy operations the four
    [evaluate] methods rely on, and the four variants themselves
    ([Objective], [ElementWiseObjective], [BatchObjective],
    [AsyncElementWiseObjective]).

    Modelling conventions.
    - Python [int] is [Z]; [len] is [py_len : list A -> Z].
    - Fitness values are the Python integers the objective functions
      return ([Z]).  The only arithmetic the code performs on them is the
      NumPy product with the directions.  NumPy stores integers that lie
      between [-2^63] and [2^63 - 1] as 64-bit integers, and on arrays of
      values strictly between [-2^63] and [2^63] ([fits_int64]) its product
      with [+1] and [-1] is the exact product computed here; beyond that
      range NumPy changes the element type (and rounds), which is outside
      this model.  Statements that give the values of a result therefore
      carry [fits_int64] as a condition; statements about shapes, signs,
      errors and the equality of two evaluations do not need it.
    - A raised exception is the [Raise] case of [outcome]; nothing in the
      source catches an exception, so [Raise] always short-circuits.
    - NumPy arrays are modelled up to rank 2 ([ndarray]); the ragged nested
      lists that [np.array]/[np.shape] refuse with a [ValueError]
      (NumPy 1.24 and later) are the arrays for which [well_shaped] is
      [false]. *)

From Stdlib Require Import ZArith String Bool Lia Arith DecimalString List.
Import ListNotations.

Set Implicit Arguments.

(** ** Exceptions and outcomes *)

(** The payload of the [ValueError]s raised by the source, one constructor
    per [raise] statement (the f-string arguments are kept as data), and of
    those raised by NumPy. *)
Inductive message : Type :=
| DirectionsMismatch (given : Z) (expected : Z)
| BadDirection (token : string)
| NamesMismatch (given : Z) (expected : Z)
| BatchNeedsAsync
| BatchTaskNeedsAsync (function_index : nat)
| AsyncNeedsAsync (function_index : nat)
| Inhomogeneous
| NoBroadcast
| ConcatenateEmpty
| ConcatenateMismatch.

Inductive exn : Type :=
| ValueError (m : message)
| ZeroDivisionError
| NotImplementedError
| UserError (code : nat).

Inductive outcome (A : Type) : Type :=
| Ok (a : A)
| Raise (e : exn).

Arguments Ok {A} a.
Arguments Raise {A} e.

Definition bind {A B} (c : outcome A) (k : A -> outcome B) : outcome B :=
  match c with
  | Ok a => k a
  | Raise e => Raise e
  end.

Notation "x <- c ;; k" := (bind c (fun x => k))
  (at level 61, c at next level, right associativity).

(** [[f x for x in xs]] when [f] may raise: left to right, stopping at the
    first exception. *)
Fixpoint mapM {A B} (f : A -> outcome B) (xs : list A) : outcome (list B) :=
  match xs with
  | [] => Ok []
  | x :: xs' =>
      y <- f x ;;
      ys <- mapM f xs' ;;
      Ok (y :: ys)
  end.

Definition is_ok {A} (c : outcome A) : bool :=
  match c with Ok _ => true | Raise _ => false end.

(** ** Python integers, ranges and slices *)

Definition py_len {A} (l : list A) : Z := Z.of_nat (length l).

(** [a % b]: the sign of the result follows the divisor, as [Z.modulo]. *)
Definition py_mod (a b : Z) : outcome Z :=
  if (b =? 0)%Z then Raise ZeroDivisionError else Ok (a mod b)%Z.

(** [range(start, stop, step)] for [step <> 0].  The source only builds a
    range after [len(items) % batch_size] has been computed, so a zero step
    is never reached; it is given the empty list here. *)
Definition py_range (start stop step : Z) : list Z :=
  if (0 <? step)%Z then
    map (fun k => (start + Z.of_nat k * step)%Z)
        (seq 0 (Z.to_nat ((stop - start + step - 1) / step)))
  else if (step <? 0)%Z then
    map (fun k => (start + Z.of_nat k * step)%Z)
        (seq 0 (Z.to_nat ((start - stop - step - 1) / (- step))))
  else [].

(** How a slice bound is brought inside [0 .. len]. *)
Definition clamp_index (len i : Z) : Z :=
  if (i <? 0)%Z then Z.max (i + len) 0 else Z.min i len.

(** [l[i:j]] *)
Definition py_slice {A} (l : list A) (i j : Z) : list A :=
  let lo := clamp_index (py_len l) i in
  let hi := clamp_index (py_len l) j in
  firstn (Z.to_nat (hi - lo)) (skipn (Z.to_nat lo) l).

(** [l[i:]] *)
Definition py_slice_from {A} (l : list A) (i : Z) : list A :=
  py_slice l i (py_len l).

(** [[x] * n] *)
Definition py_repeat {A} (x : A) (n : Z) : list A := repeat x (Z.to_nat n).

(** ** The [Objective] constructor *)

Definition str_of_nat (n : nat) : string :=
  NilEmpty.string_of_uint (Nat.to_uint n).

(** The reference front is opaque to this module. *)
Definition pareto_front : Type := list (list Z).

Record Objective (F : Type) : Type := mkObjective {
  objective_functions : list F;
  num_objectives : Z;
  directions : list Z;
  objective_names : list string;
  true_pareto : option pareto_front
}.

(** The loop of lines 23-27: each token is checked, then appended as a
    sign. *)
Fixpoint parse_directions (ds : list string) : outcome (list Z) :=
  match ds with
  | [] => Ok []
  | d :: ds' =>
      if (String.eqb d "minimize" || String.eqb d "maximize")%bool then
        rest <- parse_directions ds' ;;
        Ok ((if String.eqb d "minimize" then 1%Z else (-1)%Z) :: rest)
      else Raise (ValueError (BadDirection d))
  end.

(** Lines 6-9: [inl f] is a bare callable, [inr fs] a list. *)
Definition as_function_list {F} (functions : F + list F) : list F :=
  match functions with
  | inl f => [f]
  | inr l => l
  end.

(** Lines 11-14. *)
Definition resolve_num_objectives {F} (functions : F + list F)
    (num : option Z) : Z :=
  match num with
  | None => py_len (as_function_list functions)
  | Some k => k
  end.

(** [Objective.__init__] *)
Definition init {F} (functions : F + list F) (num : option Z)
    (dirs : option (list string)) (names : option (list string))
    (front : option pareto_front) : outcome (Objective F) :=
  let fs := as_function_list functions in
  let n := resolve_num_objectives functions num in
  ds <- match dirs with
        | None => Ok (py_repeat 1%Z n)
        | Some given =>
            if (py_len given =? n)%Z then parse_directions given
            else Raise (ValueError (DirectionsMismatch (py_len given) n))
        end ;;
  ns <- match names with
        | None => Ok (map (fun i => ("objective_" ++ str_of_nat i)%string)
                          (seq 0 (Z.to_nat n)))
        | Some given =>
            if (py_len given =? n)%Z then Ok given
            else Raise (ValueError (NamesMismatch (py_len given) n))
        end ;;
  Ok (mkObjective fs n ds ns front).

(** [Objective.type]: the name of the concrete class. *)
Inductive variant : Type :=
| VObjective
| VElementWiseObjective
| VBatchObjective
| VAsyncElementWiseObjective.

Definition type (v : variant) : string :=
  match v with
  | VObjective => "Objective"
  | VElementWiseObjective => "ElementWiseObjective"
  | VBatchObjective => "BatchObjective"
  | VAsyncElementWiseObjective => "AsyncElementWiseObjective"
  end.

(** ** NumPy arrays up to rank 2 *)

(** [Vec v] has shape [(len v,)]; [Mat n rows] has shape [(len rows, n)]
    when every row has length [n], and stands for a ragged nested list
    otherwise. *)
Inductive ndarray : Type :=
| Vec (v : list Z)
| Mat (ncols : nat) (rows : list (list Z)).

(** What a per-item objective function returns: one number, or a vector of
    sub-objectives. *)
Inductive cell : Type :=
| Num (x : Z)
| Row (v : list Z).

Definition same_length (n : nat) (rows : list (list Z)) : bool :=
  forallb (fun r => length r =? n) rows.

Definition well_shaped (a : ndarray) : bool :=
  match a with
  | Vec _ => true
  | Mat n rows => same_length n rows
  end.

(** [np.shape(a)] *)
Definition np_shape (a : ndarray) : outcome (list nat) :=
  match a with
  | Vec v => Ok [length v]
  | Mat n rows =>
      if same_length n rows then Ok [length rows; n]
      else Raise (ValueError Inhomogeneous)
  end.

(** [np.array(solutions)] for a list of rank-1 entries. *)
Definition np_array (solutions : list (list Z)) : outcome ndarray :=
  match solutions with
  | [] => Ok (Vec [])
  | r :: _ =>
      if same_length (length r) solutions then Ok (Mat (length r) solutions)
      else Raise (ValueError Inhomogeneous)
  end.

Definition as_num (c : cell) : outcome Z :=
  match c with
  | Num x => Ok x
  | Row _ => Raise (ValueError Inhomogeneous)
  end.

Definition as_row (n : nat) (c : cell) : outcome (list Z) :=
  match c with
  | Num _ => Raise (ValueError Inhomogeneous)
  | Row v => if length v =? n then Ok v else Raise (ValueError Inhomogeneous)
  end.

(** [np.array(r)] for the list of what one function returned per item. *)
Definition np_array_cells (r : list cell) : outcome ndarray :=
  match r with
  | [] => Ok (Vec [])
  | Num _ :: _ => v <- mapM as_num r ;; Ok (Vec v)
  | Row v0 :: _ =>
      rows <- mapM (as_row (length v0)) r ;; Ok (Mat (length v0) rows)
  end.

(** Column [j] of a list of rows. *)
Definition column (rows : list (list Z)) (j : nat) : list Z :=
  map (fun r => nth j r 0%Z) rows.

(** [a.T] *)
Definition transpose (a : ndarray) : ndarray :=
  match a with
  | Vec v => Vec v
  | Mat n rows => Mat (length rows) (map (column rows) (seq 0 n))
  end.

(** [np.concatenate(outputs)] along the first axis. *)
Definition as_vec (a : ndarray) : outcome (list Z) :=
  match a with
  | Vec v => Ok v
  | Mat _ _ => Raise (ValueError ConcatenateMismatch)
  end.

Definition as_rows (n : nat) (a : ndarray) : outcome (list (list Z)) :=
  match a with
  | Vec _ => Raise (ValueError ConcatenateMismatch)
  | Mat n' rows =>
      if n' =? n then Ok rows else Raise (ValueError ConcatenateMismatch)
  end.

Definition np_concatenate (outputs : list ndarray) : outcome ndarray :=
  if negb (forallb well_shaped outputs) then Raise (ValueError Inhomogeneous)
  else
    match outputs with
    | [] => Raise (ValueError ConcatenateEmpty)
    | Vec _ :: _ => vs <- mapM as_vec outputs ;; Ok (Vec (concat vs))
    | Mat n _ :: _ => rs <- mapM (as_rows n) outputs ;; Ok (Mat n (concat rs))
    end.

(** ** Broadcasting against [self.directions] *)

(** A last axis of length [n] broadcasts against [d] directions. *)
Definition compatible (n d : nat) : bool :=
  (n =? d) || (d =? 1) || (n =? 1).

Fixpoint zip_mul (xs ds : list Z) : list Z :=
  match xs, ds with
  | x :: xs', d :: ds' => (x * d)%Z :: zip_mul xs' ds'
  | _, _ => []
  end.

Definition broadcast_row (ds : list Z) (row : list Z) : list Z :=
  if length row =? length ds then zip_mul row ds
  else if length ds =? 1 then map (fun x => (x * hd 0%Z ds)%Z) row
  else map (fun d => (hd 0%Z row * d)%Z) ds.

Definition broadcast_width (n d : nat) : nat := if n =? 1 then d else n.

(** [a * self.directions] *)
Definition mul_directions (a : ndarray) (ds : list Z) : outcome ndarray :=
  match a with
  | Vec v =>
      if compatible (length v) (length ds) then Ok (Vec (broadcast_row ds v))
      else Raise (ValueError NoBroadcast)
  | Mat n rows =>
      if compatible n (length ds)
      then Ok (Mat (broadcast_width n (length ds))
                   (map (broadcast_row ds) rows))
      else Raise (ValueError NoBroadcast)
  end.

(** ** The four [evaluate] methods *)

Definition candidate : Type := list Z.

(** A loop whose body may raise. *)
Fixpoint foldM {A B} (f : B -> A -> outcome B) (acc : B) (xs : list A)
  : outcome B :=
  match xs with
  | [] => Ok acc
  | x :: xs' => acc' <- f acc x ;; foldM f acc' xs'
  end.

(** What is appended to [solutions] for one result: the array itself when
    its rank is 1, each of its sub-arrays when its rank is 2. *)
Definition rows_of (a : ndarray) : list (list Z) :=
  match a with
  | Vec v => [v]
  | Mat _ rows => rows
  end.

(** The body of the loop of lines 43-48 (and 97-102).  Both branches of
    the test [len(np.shape(r)) > 1] append [rows_of r]: the sub-arrays of
    a rank-2 [r], [r] itself otherwise. *)
Definition append_result (solutions : list (list Z)) (r : ndarray)
  : outcome (list (list Z)) :=
  shape <- np_shape r ;;
  Ok (solutions ++ rows_of r).

(** The body of the loop of lines 60-65 (and 118-123): the rows of
    [np.array(r).T] are appended when the rank exceeds 1. *)
Definition append_transposed (solutions : list (list Z)) (r : ndarray)
  : outcome (list (list Z)) :=
  shape <- np_shape r ;;
  if 1 <? length shape then Ok (solutions ++ rows_of (transpose r))
  else Ok (solutions ++ rows_of r).

(** *** [Objective.evaluate] *)

Definition vectorized : Type := list candidate -> outcome ndarray.

(** Lines 40-48 and the [np.array(solutions)] of line 49. *)
Definition stack (fs : list vectorized) (items : list candidate)
  : outcome ndarray :=
  result <- mapM (fun f => f items) fs ;;
  solutions <- foldM append_result [] result ;;
  np_array solutions.

Definition evaluate (self : Objective vectorized) (items : list candidate)
  : outcome ndarray :=
  arr <- stack (objective_functions self) items ;;
  mul_directions arr (directions self).

(** *** [ElementWiseObjective.evaluate] *)

Definition elementwise : Type := candidate -> outcome cell.

(** Lines 57-65 and the [np.array(solutions).T] of line 66.  [np.shape(r)]
    and [np.array(r)] convert the Python list [r] in the same way. *)
Definition stack_elementwise (fs : list elementwise) (items : list candidate)
  : outcome ndarray :=
  result <- mapM (fun f => mapM f items) fs ;;
  solutions <- foldM (fun sols r => a <- np_array_cells r ;;
                                    append_transposed sols a) [] result ;;
  arr <- np_array solutions ;;
  Ok (transpose arr).

Definition evaluate_elementwise (self : Objective elementwise)
    (items : list candidate) : outcome ndarray :=
  arr <- stack_elementwise (objective_functions self) items ;;
  mul_directions arr (directions self).

(** ** The asynchronous variants *)

(** An objective function as the asynchronous variants see it:
    [asyncio.iscoroutinefunction] answers [is_coroutine]; awaiting a call
    finishes after [fst (run x)] steps of the event loop with the outcome
    [snd (run x)]. *)
Record coroutine_function (A B : Type) : Type := mkCoroutine {
  is_coroutine : bool;
  run : A -> nat * outcome B
}.

(** The calls dispatched so far: which function (by position in
    [objective_functions]) on which argument. *)
Definition trace (A : Type) : Type := list (nat * A).

(** The failing task that finishes first; of two that finish together, the
    one submitted first. *)
Fixpoint first_failure {B} (tasks : list (nat * outcome B))
  : option (nat * exn) :=
  match tasks with
  | [] => None
  | (_, Ok _) :: rest => first_failure rest
  | (t, Raise e) :: rest =>
      match first_failure rest with
      | Some (t', e') => if t' <? t then Some (t', e') else Some (t, e)
      | None => Some (t, e)
      end
  end.

(** Awaiting [asyncio.gather] on the tasks: the results in submission
    order, or the first exception raised. *)
Definition gather {B} (tasks : list (nat * outcome B)) : outcome (list B) :=
  match first_failure tasks with
  | Some (_, e) => Raise e
  | None => mapM snd tasks
  end.

(** *** [BatchObjective] *)

Definition batched : Type := coroutine_function (list candidate) ndarray.

Record BatchObjective : Type := mkBatchObjective {
  base : Objective batched;
  batch_size : Z
}.

(** [BatchObjective.__init__] *)
Definition init_batch (functions : batched + list batched) (size : Z)
    (num : option Z) (dirs : option (list string))
    (names : option (list string)) (front : option pareto_front)
  : outcome BatchObjective :=
  self <- init functions num dirs names front ;;
  Ok (mkBatchObjective self size).

(** Lines 81-87. *)
Definition make_batches {A} (items : list A) (size : Z)
  : outcome (list (list A)) :=
  m <- py_mod (py_len items) size ;;
  if (m =? 0)%Z then
    Ok (map (fun i => py_slice items i (i + size))
            (py_range 0 (py_len items) size))
  else
    Ok (map (fun i => py_slice items i (i + size))
            (py_range 0 (py_len items - m) size)
        ++ [py_slice_from items (py_len items - m)]).

(** [BatchObjective._async_evaluate], for the function at position [idx]. *)
Definition batch_async_evaluate (idx : nat) (obj_func : batched)
    (batches : list (list candidate)) (tr : trace (list candidate))
  : trace (list candidate) * outcome (list ndarray) :=
  if negb (is_coroutine obj_func)
  then (tr, Raise (ValueError (BatchTaskNeedsAsync idx)))
  else (tr ++ map (fun b => (idx, b)) batches,
        gather (map (run obj_func) batches)).

(** The loop of lines 90-94. *)
Fixpoint batch_loop (idx : nat) (fs : list batched)
    (batches : list (list candidate)) (tr : trace (list candidate))
    (result : list ndarray)
  : trace (list candidate) * outcome (list ndarray) :=
  match fs with
  | [] => (tr, Ok result)
  | obj_func :: fs' =>
      if negb (is_coroutine obj_func)
      then (tr, Raise (ValueError BatchNeedsAsync))
      else
        match batch_async_evaluate idx obj_func batches tr with
        | (tr', Raise e) => (tr', Raise e)
        | (tr', Ok tasks_output) =>
            match np_concatenate tasks_output with
            | Raise e => (tr', Raise e)
            | Ok r => batch_loop (S idx) fs' batches tr' (result ++ [r])
            end
        end
  end.

(** Lines 81-102 and the [np.array(solutions)] of line 103, with the calls
    dispatched. *)
Definition stack_batch (fs : list batched) (size : Z)
    (items : list candidate) : trace (list candidate) * outcome ndarray :=
  match make_batches items size with
  | Raise e => ([], Raise e)
  | Ok batches =>
      let (tr, looped) := batch_loop 0 fs batches [] [] in
      (tr,
       result <- looped ;;
       solutions <- foldM append_result [] result ;;
       np_array solutions)
  end.

(** [BatchObjective.evaluate], with the calls it dispatched. *)
Definition evaluate_batch (self : BatchObjective) (items : list candidate)
  : trace (list candidate) * outcome ndarray :=
  let (tr, stacked) :=
    stack_batch (objective_functions (base self)) (batch_size self) items in
  (tr, arr <- stacked ;; mul_directions arr (directions (base self))).

(** *** [AsyncElementWiseObjective] *)

Definition async_elementwise : Type := coroutine_function candidate cell.

(** [AsyncElementWiseObjective._async_evaluate] *)
Definition async_evaluate (idx : nat) (obj_func : async_elementwise)
    (items : list candidate) (tr : trace candidate)
  : trace candidate * outcome (list cell) :=
  if negb (is_coroutine obj_func)
  then (tr, Raise (ValueError (AsyncNeedsAsync idx)))
  else (tr ++ map (fun x => (idx, x)) items,
        gather (map (run obj_func) items)).

(** The loop of lines 114-116. *)
Fixpoint async_loop (idx : nat) (fs : list async_elementwise)
    (items : list candidate) (tr : trace candidate) (result : list ndarray)
  : trace candidate * outcome (list ndarray) :=
  match fs with
  | [] => (tr, Ok result)
  | obj_func :: fs' =>
      match async_evaluate idx obj_func items tr with
      | (tr', Raise e) => (tr', Raise e)
      | (tr', Ok tasks_output) =>
          match np_array_cells tasks_output with
          | Raise e => (tr', Raise e)
          | Ok r => async_loop (S idx) fs' items tr' (result ++ [r])
          end
      end
  end.

(** Lines 113-123 and the [np.array(solutions).T] of line 124, with the
    calls dispatched. *)
Definition stack_async (fs : list async_elementwise) (items : list candidate)
  : trace candidate * outcome ndarray :=
  let (tr, looped) := async_loop 0 fs items [] [] in
  (tr,
   result <- looped ;;
   solutions <- foldM append_transposed [] result ;;
   arr <- np_array solutions ;;
   Ok (transpose arr)).

(** [AsyncElementWiseObjective.evaluate], with the calls it dispatched. *)
Definition evaluate_async (self : Objective async_elementwise)
    (items : list candidate) : trace candidate * outcome ndarray :=
  let (tr, stacked) := stack_async (objective_functions self) items in
  (tr, arr <- stacked ;; mul_directions arr (directions self)).

(** ** [Optimizer]: the abstract base class *)

Inductive optimizer_method : Type := Opt_init | Opt_step | Opt_optimize.

Definition optimizer_call (m : optimizer_method) : outcome unit :=
  match m with
  | Opt_init => Raise NotImplementedError
  | Opt_step => Raise NotImplementedError
  | Opt_optimize => Raise NotImplementedError
  end.

(** ** Vocabulary of the statements *)

(** A direction token the constructor refuses. *)
Definition invalid_token (d : string) : Prop :=
  d <> "minimize"%string /\ d <> "maximize"%string.

(** The sign stored for an accepted token (line 27). *)
Definition sign_of (d : string) : Z :=
  if String.eqb d "minimize" then 1%Z else (-1)%Z.

(** The length of the axis that is broadcast against the directions. *)
Definition last_axis (a : ndarray) : nat :=
  match a with
  | Vec v => length v
  | Mat n _ => n
  end.

(** The rows of [a.T]. *)
Definition columns_of (a : ndarray) : list (list Z) := rows_of (transpose a).

(** The number a per-item function returns for a candidate, when it
    returns one. *)
Definition scalar_value (f : elementwise) (x : candidate) : Z :=
  match f x with
  | Ok (Num v) => v
  | _ => 0%Z
  end.

(** The body of a coroutine function, called synchronously. *)
Definition awaited {A B} (f : coroutine_function A B) (x : A) : outcome B :=
  snd (run f x).

(** Row [i] of the fitness matrix as the specification describes it: the
    value of each function on the candidate, times its direction. *)
Definition signed_row (fs : list elementwise) (ds : list Z) (x : candidate)
  : list Z :=
  zip_mul (map (fun f => scalar_value f x) fs) ds.

(** What a per-item function returns for a candidate, when it returns. *)
Definition cell_value {A} (f : A -> outcome cell) (x : A) : cell :=
  match f x with
  | Ok c => c
  | Raise _ => Num 0
  end.

(** The calls dispatched when the functions at positions
    [idx .. idx + n - 1] are each called on every argument. *)
Definition dispatch_all {A} (idx n : nat) (args : list A) : trace A :=
  flat_map (fun k => map (fun x => (k, x)) args) (seq idx n).

(** The common shape of the loops of [BatchObjective.evaluate] and
    [AsyncElementWiseObjective.evaluate]: for each function in turn, refuse
    it if it is not a coroutine function, dispatch one call per argument,
    wait for all of them, convert the outputs to one array.  [batch_loop]
    and [async_loop] are instances ([batch_loop_group],
    [async_loop_group]). *)
Section GroupLoop.
Context {A B : Type}.
Variable convert : list B -> outcome ndarray.
Variable refusal : nat -> exn.

Fixpoint group_loop (idx : nat) (fs : list (coroutine_function A B))
    (args : list A) (tr : trace A) (result : list ndarray)
  : trace A * outcome (list ndarray) :=
  match fs with
  | [] => (tr, Ok result)
  | f :: fs' =>
      if negb (is_coroutine f) then (tr, Raise (refusal idx))
      else
        match gather (map (run f) args) with
        | Raise e => (tr ++ map (fun x => (idx, x)) args, Raise e)
        | Ok outputs =>
            match convert outputs with
            | Raise e => (tr ++ map (fun x => (idx, x)) args, Raise e)
            | Ok r =>
                group_loop (S idx) fs' args
                           (tr ++ map (fun x => (idx, x)) args)
                           (result ++ [r])
            end
        end
  end.
End GroupLoop.

(** The rows a batched function returns for a batch, when it returns a
    table. *)
Definition table_of (f : batched) (batch : list candidate) : list (list Z) :=
  match awaited f batch with
  | Ok (Mat _ rows) => rows
  | _ => []
  end.

(** The objective set whose functions are the bodies of the coroutine
    functions of [self], called synchronously. *)
Definition synchronous_form {A B} (self : Objective (coroutine_function A B))
  : Objective (A -> outcome B) :=
  mkObjective (map awaited (objective_functions self)) (num_objectives self)
              (directions self) (objective_names self) (true_pareto self).

(** The value a batched function computes for one candidate. *)
Definition flat_value (f : batched) (x : candidate) : Z :=
  match awaited f [x] with
  | Ok (Vec [v]) => v
  | _ => 0%Z
  end.

(** An integer that NumPy stores in 64 bits and whose negation it also
    stores. *)
Definition fits_int64 (x : Z) : Prop := (- 2 ^ 63 < x < 2 ^ 63)%Z.

Definition rows_fit (rows : list (list Z)) : Prop :=
  Forall (Forall fits_int64) rows.

Definition array_fits (a : ndarray) : Prop := rows_fit (rows_of a).

(** Directions as the constructor stores them: each is [1] or [-1]. *)
Definition unit_directions (ds : list Z) : Prop :=
  Forall (fun d => d = 1%Z \/ d = (-1)%Z) ds.

(** The values in a per-item result. *)
Definition cell_values (c : cell) : list Z :=
  match c with
  | Num v => [v]
  | Row v => v
  end.

(** The raw row of a candidate: what each function returns for it, side
    by side in the order of the functions. *)
Definition raw_row (fs : list elementwise) (x : candidate) : list Z :=
  flat_map (fun f => cell_values (cell_value f x)) fs.

(** [np.broadcast_to] along the last axis: a row as it is read when it is
    combined with [d] directions, without any multiplication. *)
Definition stretch_row (d : nat) (row : list Z) : list Z :=
  if length row =? d then row
  else if d =? 1 then row
  else repeat (hd 0%Z row) d.

Definition np_broadcast_to (a : ndarray) (d : nat) : outcome ndarray :=
  match a with
  | Vec v =>
      if compatible (length v) d then Ok (Vec (stretch_row d v))
      else Raise (ValueError NoBroadcast)
  | Mat n rows =>
      if compatible n d
      then Ok (Mat (broadcast_width n d) (map (stretch_row d) rows))
      else Raise (ValueError NoBroadcast)
  end.

(** The array of the images of the entries. *)
Definition array_map (g : Z -> Z) (a : ndarray) : ndarray :=
  match a with
  | Vec v => Vec (map g v)
  | Mat n rows => Mat n (map (map g) rows)
  end.

(** ** Sample objective functions

    The functions of the repository's tests and documentation, used below
    to run the model on concrete populations. *)

Definition square_first (p : candidate) : Z := (hd 0 p * hd 0 p)%Z.

Definition square_shifted (p : candidate) : Z :=
  ((hd 0 p - 5) * (hd 0 p - 5))%Z.

(** [f(p) = p[0]**2] and [g(p) = (p[0]-5)**2], called item by item. *)
Definition f_item : elementwise := fun p => Ok (Num (square_first p)).
Definition g_item : elementwise := fun p => Ok (Num (square_shifted p)).

(** The same two functions called once on the whole population, each
    returning one value per candidate. *)
Definition f_flat : vectorized :=
  fun items => Ok (Vec (map square_first items)).
Definition g_flat : vectorized :=
  fun items => Ok (Vec (map square_shifted items)).

(** The function of [tests/test_pareto_history.py]: one row of two
    objectives per candidate. *)
Definition f_table : vectorized :=
  fun params =>
    if (length params =? 0)%nat then Ok (Vec []) else
    Ok (Mat 2 (map (fun p => [ (4 * nth 0 p 0 * nth 0 p 0
                                + 4 * nth 1 p 0 * nth 1 p 0)%Z ;
                               ((nth 0 p 0 - 5) * (nth 0 p 0 - 5)
                                + (nth 1 p 0 - 5) * (nth 1 p 0 - 5))%Z ])
                   params)).

(** Its per-item form. *)
Definition f_pair : elementwise :=
  fun p => Ok (Row [ (4 * nth 0 p 0 * nth 0 p 0
                      + 4 * nth 1 p 0 * nth 1 p 0)%Z ;
                     ((nth 0 p 0 - 5) * (nth 0 p 0 - 5)
                      + (nth 1 p 0 - 5) * (nth 1 p 0 - 5))%Z ]).

(** Asynchronous forms: a coroutine function that finishes after as many
    steps as its argument has entries, and an ordinary function. *)
Definition f_flat_async : batched :=
  mkCoroutine true (fun batch => (length batch, f_flat batch)).
Definition f_table_async : batched :=
  mkCoroutine true (fun batch => (length batch, f_table batch)).
Definition f_flat_sync : batched :=
  mkCoroutine false (fun batch => (0, f_flat batch)).
Definition f_item_async : async_elementwise :=
  mkCoroutine true (fun p => (length p, f_item p)).
Definition g_item_async : async_elementwise :=
  mkCoroutine true (fun p => (length p, g_item p)).
Definition f_item_sync : async_elementwise :=
  mkCoroutine false (fun p => (0, f_item p)).

Definition sample_items : list candidate := [[0]; [5]; [2]]%Z.

(** A function that raises on the candidates whose first coordinate is 5,
    in its per-item, asynchronous per-item and asynchronous batched
    forms. *)
Definition raising_item : elementwise :=
  fun p => if (hd 0%Z p =? 5)%Z then Raise (UserError 7)
           else Ok (Num (square_first p)).
Definition raising_item_async : async_elementwise :=
  mkCoroutine true (fun p => (Z.to_nat (hd 0%Z p), raising_item p)).
Definition raising_batch_async : batched :=
  mkCoroutine true
    (fun batch =>
       (length batch,
        if existsb (fun p : candidate => (hd 0%Z p =? 5)%Z) batch
        then Raise (UserError 7)
        else f_flat batch)).

(** * Properties *)

(** ** Outcomes *)

Lemma bind_ok_inv {A B} (c : outcome A) (k : A -> outcome B) (b : B) :
  bind c k = Ok b -> exists a, c = Ok a /\ k a = Ok b.
Proof.
  destruct c as [a|e]; simpl; intros H.
  - exists a. split; [reflexivity | exact H].
  - discriminate.
Qed.

Lemma bind_raise_inv {A B} (c : outcome A) (k : A -> outcome B) (e : exn) :
  bind c k = Raise e ->
  c = Raise e \/ exists a, c = Ok a /\ k a = Raise e.
Proof.
  destruct c as [a|e']; simpl; intros H.
  - right. exists a. split; [reflexivity | exact H].
  - left. injection H as ->. reflexivity.
Qed.

Ltac bind_inv H :=
  let a := fresh "a" in
  let Ha := fresh "Ha" in
  apply bind_ok_inv in H; destruct H as [a [Ha H]].

Lemma mapM_length {A B} (f : A -> outcome B) (xs : list A) (ys : list B) :
  mapM f xs = Ok ys -> length ys = length xs.
Proof.
  revert ys. induction xs as [|x xs IH]; simpl; intros ys H.
  - injection H as <-. reflexivity.
  - bind_inv H. bind_inv H. injection H as <-. simpl.
    f_equal. apply IH. assumption.
Qed.

Lemma mapM_ok_map {A B} (f : A -> outcome B) (g : A -> B) (xs : list A) :
  (forall x, In x xs -> f x = Ok (g x)) -> mapM f xs = Ok (map g xs).
Proof.
  induction xs as [|x xs IH]; simpl; intros H.
  - reflexivity.
  - rewrite (H x (or_introl eq_refl)). simpl.
    rewrite IH by (intros y Hy; apply H; right; exact Hy).
    reflexivity.
Qed.

Lemma mapM_Forall2 {A B} (f : A -> outcome B) (xs : list A) (ys : list B) :
  mapM f xs = Ok ys -> Forall2 (fun x y => f x = Ok y) xs ys.
Proof.
  revert ys. induction xs as [|x xs IH]; simpl; intros ys H.
  - injection H as <-. constructor.
  - bind_inv H. bind_inv H. injection H as <-.
    constructor; [assumption | apply IH; assumption].
Qed.

(** [mapM] raises exactly when some call does, and then it raises what
    the first failing call raised. *)
Lemma mapM_raise {A B} (f : A -> outcome B) (xs : list A) :
  (exists x, In x xs /\ is_ok (f x) = false) ->
  exists pre x post e,
    xs = pre ++ x :: post /\
    (forall y, In y pre -> is_ok (f y) = true) /\
    f x = Raise e /\ mapM f xs = Raise e.
Proof.
  induction xs as [|x xs IH]; intros [y [Hin Hy]].
  - destruct Hin.
  - destruct (f x) as [b|e] eqn:Hfx.
    + destruct Hin as [->|Hin].
      * rewrite Hfx in Hy. discriminate.
      * destruct IH as (pre & z & post & e & -> & Hpre & Hz & Hm).
        { exists y. split; assumption. }
        exists (x :: pre), z, post, e. repeat split.
        -- intros w [<-|Hw]; [rewrite Hfx; reflexivity | apply Hpre; exact Hw].
        -- exact Hz.
        -- simpl. rewrite Hfx. simpl. rewrite Hm. reflexivity.
    + exists [], x, xs, e. repeat split.
      * intros w [].
      * exact Hfx.
      * simpl. rewrite Hfx. reflexivity.
Qed.

(** ** The constructor *)

Lemma parse_directions_invalid (ds : list string) :
  Exists invalid_token ds ->
  exists bad, In bad ds /\ invalid_token bad /\
              parse_directions ds = Raise (ValueError (BadDirection bad)).
Proof.
  induction ds as [|d ds IH]; intros H.
  - inversion H.
  - simpl.
    destruct (String.eqb d "minimize" || String.eqb d "maximize")%bool eqn:Hd.
    + assert (Hrest : Exists invalid_token ds).
      { inversion H as [? ? [H1 H2]|]; subst; [|assumption].
        apply orb_true_iff in Hd.
        destruct Hd as [Hd|Hd]; apply String.eqb_eq in Hd; contradiction. }
      destruct (IH Hrest) as (bad & Hin & Hbad & Hp).
      exists bad. repeat split; try (right; exact Hin); try apply Hbad.
      rewrite Hp. reflexivity.
    + apply orb_false_iff in Hd. destruct Hd as [H1 H2].
      apply String.eqb_neq in H1. apply String.eqb_neq in H2.
      exists d. repeat split; try (left; reflexivity); assumption.
Qed.

Lemma parse_directions_ok (ds : list string) (l : list Z) :
  parse_directions ds = Ok l ->
  l = map sign_of ds /\
  Forall (fun d => d = "minimize"%string \/ d = "maximize"%string) ds.
Proof.
  revert l. induction ds as [|d ds IH]; simpl; intros l H.
  - injection H as <-. split; [reflexivity | constructor].
  - destruct (String.eqb d "minimize" || String.eqb d "maximize")%bool eqn:Hd;
      [|discriminate].
    bind_inv H. injection H as <-.
    destruct (IH _ Ha) as [-> Hall]. split; [reflexivity|].
    constructor; [|exact Hall].
    apply orb_true_iff in Hd.
    destruct Hd as [Hd|Hd]; apply String.eqb_eq in Hd; auto.
Qed.

Lemma parse_directions_valid (ds : list string) :
  Forall (fun d => d = "minimize"%string \/ d = "maximize"%string) ds ->
  parse_directions ds = Ok (map sign_of ds).
Proof.
  induction 1 as [|d ds Hd _ IH]; simpl.
  - reflexivity.
  - replace (String.eqb d "minimize" || String.eqb d "maximize")%bool
      with true.
    + rewrite IH. reflexivity.
    + symmetry. apply orb_true_iff.
      destruct Hd as [->| ->]; [left|right]; reflexivity.
Qed.

Lemma py_len_repeat {A} (x : A) (n : Z) :
  (0 <= n)%Z -> py_len (py_repeat x n) = n.
Proof.
  intros Hn. unfold py_len, py_repeat. rewrite repeat_length. lia.
Qed.

(** What [init] raises for a given [directions] argument. *)
Lemma init_directions_error {F} (functions : F + list F) num ds names front :
  py_len ds <> resolve_num_objectives functions num \/
  Exists invalid_token ds ->
  exists m,
    init functions num (Some ds) names front = Raise (ValueError m) /\
    (m = DirectionsMismatch (py_len ds)
                            (resolve_num_objectives functions num) \/
     exists bad, In bad ds /\ invalid_token bad /\ m = BadDirection bad).
Proof.
  intros H. unfold init.
  destruct (py_len ds =? resolve_num_objectives functions num)%Z eqn:Hlen.
  - apply Z.eqb_eq in Hlen. destruct H as [H|H]; [contradiction|].
    destruct (parse_directions_invalid H) as (bad & Hin & Hbad & Hp).
    exists (BadDirection bad). rewrite Hp. simpl. split; [reflexivity|].
    right. exists bad. auto.
  - eexists. simpl. split; [reflexivity|]. left. reflexivity.
Qed.

Lemma init_ok_inv {F} (functions : F + list F) num dirs names front self :
  init functions num dirs names front = Ok self ->
  objective_functions self = as_function_list functions /\
  num_objectives self = resolve_num_objectives functions num /\
  match dirs with
  | None => directions self = py_repeat 1%Z (num_objectives self)
  | Some ds => py_len ds = num_objectives self /\
               directions self = map sign_of ds
  end /\
  match names with
  | None => objective_names self =
            map (fun i => ("objective_" ++ str_of_nat i)%string)
                (seq 0 (Z.to_nat (num_objectives self)))
  | Some ns => py_len ns = num_objectives self /\ objective_names self = ns
  end /\
  true_pareto self = front.
Proof.
  unfold init. intros H. bind_inv H. rename a into ds, Ha into Hds.
  bind_inv H. rename a into ns, Ha into Hns. injection H as <-. simpl.
  split; [reflexivity|]. split; [reflexivity|]. split; [|split].
  - destruct dirs as [given|].
    + destruct (py_len given =? _)%Z eqn:Hlen; [|discriminate].
      apply Z.eqb_eq in Hlen. split; [exact Hlen|].
      apply parse_directions_ok in Hds. apply Hds.
    + injection Hds as <-. reflexivity.
  - destruct names as [given|].
    + destruct (py_len given =? _)%Z eqn:Hlen; [|discriminate].
      apply Z.eqb_eq in Hlen. injection Hns as <-. split; [exact Hlen|reflexivity].
    + injection Hns as <-. reflexivity.
  - reflexivity.
Qed.

(** C7. Construction with a [directions] argument whose length differs from
    [num_objectives], or that holds a token other than "minimize" and
    "maximize", raises a [ValueError] and builds no object: the length
    mismatch is reported first, otherwise the first offending token.  This
    holds for the shared constructor and for [BatchObjective]'s. *)
Theorem init_rejects_invalid_directions :
  forall (num : option Z) (ds : list string) (names : option (list string))
         (front : option pareto_front),
    (forall (F : Type) (functions : F + list F),
        py_len ds <> resolve_num_objectives functions num \/
        Exists invalid_token ds ->
        exists m,
          init functions num (Some ds) names front = Raise (ValueError m) /\
          (m = DirectionsMismatch (py_len ds)
                                  (resolve_num_objectives functions num) \/
           exists bad, In bad ds /\ invalid_token bad /\ m = BadDirection bad))
    /\
    (forall (functions : batched + list batched) (size : Z),
        py_len ds <> resolve_num_objectives functions num \/
        Exists invalid_token ds ->
        exists m,
          init_batch functions size num (Some ds) names front
          = Raise (ValueError m) /\
          (m = DirectionsMismatch (py_len ds)
                                  (resolve_num_objectives functions num) \/
           exists bad, In bad ds /\ invalid_token bad /\ m = BadDirection bad)).
Proof.
  intros num ds names front. split.
  - intros F functions H. apply init_directions_error. exact H.
  - intros functions size H.
    destruct (init_directions_error functions num names front H)
      as (m & Hm & Hkind).
    exists m. split; [|exact Hkind].
    unfold init_batch. rewrite Hm. reflexivity.
Qed.

Lemma init_rejects_invalid_directions_witness :
  exists m,
    init (inr [f_flat; g_flat]) None
         (Some ["minimize"; "maximize"; "minimize"]%string) None None
    = Raise (ValueError m) /\
    (m = DirectionsMismatch 3 2 \/
     exists bad,
       In bad ["minimize"; "maximize"; "minimize"]%string /\
       invalid_token bad /\ m = BadDirection bad).
Proof.
  apply (proj1 (init_rejects_invalid_directions
                  None ["minimize"; "maximize"; "minimize"]%string None None)
               vectorized (inr [f_flat; g_flat])).
  left. vm_compute. discriminate.
Defined.

Lemma parse_directions_raise_inv (ds : list string) (e : exn) :
  parse_directions ds = Raise e -> exists d, e = ValueError (BadDirection d).
Proof.
  induction ds as [|d ds IH]; simpl; intros H.
  - discriminate.
  - destruct (String.eqb d "minimize" || String.eqb d "maximize")%bool.
    + destruct (parse_directions ds) as [rest|e'] eqn:Hrest; simpl in H.
      * discriminate.
      * injection H as <-. apply IH. reflexivity.
    + injection H as <-. exists d. reflexivity.
Qed.

(** Every error of the constructor is a [ValueError]. *)
Lemma init_raise_inv {F} (functions : F + list F) num dirs names front e :
  init functions num dirs names front = Raise e -> exists m, e = ValueError m.
Proof.
  unfold init. intros H.
  apply bind_raise_inv in H. destruct H as [H|(ds & Hds & H)].
  - destruct dirs as [given|]; [|discriminate].
    destruct (py_len given =? _)%Z.
    + destruct (parse_directions_raise_inv _ H) as [d ->]. eexists.
      reflexivity.
    + injection H as <-. eexists. reflexivity.
  - apply bind_raise_inv in H. destruct H as [H|(ns & Hns & H)];
      [|discriminate].
    destruct names as [given|]; [|discriminate].
    destruct (py_len given =? _)%Z; [discriminate|].
    injection H as <-. eexists. reflexivity.
Qed.

(** What the constructor stores and what it refuses, for a
    [num_objectives] that is not negative. *)
Lemma init_lists {F} (functions : F + list F) num dirs names front :
  (0 <= resolve_num_objectives functions num)%Z ->
  (forall self : Objective F,
      init functions num dirs names front = Ok self ->
      num_objectives self = resolve_num_objectives functions num /\
      py_len (directions self) = num_objectives self /\
      py_len (objective_names self) = num_objectives self /\
      match dirs with
      | Some ds => directions self = map sign_of ds
      | None => directions self = py_repeat 1%Z (num_objectives self)
      end /\
      match names with
      | Some ns => objective_names self = ns
      | None => objective_names self =
                map (fun i => ("objective_" ++ str_of_nat i)%string)
                    (seq 0 (Z.to_nat (num_objectives self)))
      end)
  /\
  (forall ds, dirs = Some ds ->
              py_len ds <> resolve_num_objectives functions num ->
              exists m, init functions num dirs names front
                        = Raise (ValueError m))
  /\
  (forall ns, names = Some ns ->
              py_len ns <> resolve_num_objectives functions num ->
              exists m, init functions num dirs names front
                        = Raise (ValueError m)).
Proof.
  intros Hn. split; [|split].
  - intros self H.
    destruct (init_ok_inv _ _ _ _ _ H) as (_ & Hnum & Hd & Hnm & _).
    rewrite <- Hnum in Hn.
    split; [exact Hnum|]. split; [|split; [|split]].
    + destruct dirs as [ds|].
      * destruct Hd as [Hlen ->]. unfold py_len in *.
        rewrite length_map. exact Hlen.
      * rewrite Hd. apply py_len_repeat. exact Hn.
    + destruct names as [ns|].
      * destruct Hnm as [Hlen ->]. exact Hlen.
      * rewrite Hnm. unfold py_len. rewrite length_map, length_seq. lia.
    + destruct dirs as [ds|]; [apply Hd | exact Hd].
    + destruct names as [ns|]; [apply Hnm | exact Hnm].
  - intros ds -> Hlen.
    destruct (init_directions_error functions num names front
                                    (or_introl Hlen)) as (m & Hm & _).
    exists m. exact Hm.
  - intros ns -> Hlen.
    destruct (init functions num dirs (Some ns) front) as [self|e] eqn:H.
    + exfalso. destruct (init_ok_inv _ _ _ _ _ H) as (_ & Hnum & _ & Hnm & _).
      destruct Hnm as [Hl _]. rewrite Hnum in Hl. contradiction.
    + destruct (init_raise_inv _ _ _ _ _ H) as [m ->]. exists m. reflexivity.
Qed.

(** C8 (as stated, refuted). [Objective(f, num_objectives=-1)] is
    constructed: [num_objectives] is [-1], and the default directions and
    names are empty lists. *)
Lemma negative_num_objectives_breaks_lengths :
  exists self : Objective elementwise,
    init (inl f_item) (Some (-1)%Z) None None None = Ok self /\
    num_objectives self = (-1)%Z /\
    directions self = [] /\
    objective_names self = [] /\
    py_len (directions self) <> num_objectives self.
Proof.
  eexists. split; [reflexivity|]. split; [reflexivity|].
  split; [reflexivity|]. split; [reflexivity|]. simpl. discriminate.
Qed.

(** C8 (amended). For a [num_objectives] that is not negative (always so
    when it defaults to the number of functions), a successful
    construction leaves [len(directions) == len(names) == num_objectives];
    directions and names that were supplied are stored entry for entry
    (each token as its sign, each name as it is), never shortened or
    extended; omitted ones are [num_objectives] times [+1] and the names
    "objective_0", "objective_1", ...; and a supplied list of another
    length makes the constructor raise a [ValueError].  The same holds for
    [BatchObjective]. *)
Theorem init_keeps_supplied_lists :
  forall (num : option Z) (dirs names : option (list string))
         (front : option pareto_front),
    (forall (F : Type) (functions : F + list F),
        (0 <= resolve_num_objectives functions num)%Z ->
        (forall self : Objective F,
            init functions num dirs names front = Ok self ->
            num_objectives self = resolve_num_objectives functions num /\
            py_len (directions self) = num_objectives self /\
            py_len (objective_names self) = num_objectives self /\
            match dirs with
            | Some ds => directions self = map sign_of ds
            | None => directions self = py_repeat 1%Z (num_objectives self)
            end /\
            match names with
            | Some ns => objective_names self = ns
            | None => objective_names self =
                      map (fun i => ("objective_" ++ str_of_nat i)%string)
                          (seq 0 (Z.to_nat (num_objectives self)))
            end)
        /\
        (forall ds, dirs = Some ds ->
                    py_len ds <> resolve_num_objectives functions num ->
                    exists m, init functions num dirs names front
                              = Raise (ValueError m))
        /\
        (forall ns, names = Some ns ->
                    py_len ns <> resolve_num_objectives functions num ->
                    exists m, init functions num dirs names front
                              = Raise (ValueError m)))
    /\
    (forall (functions : batched + list batched) (size : Z),
        (0 <= resolve_num_objectives functions num)%Z ->
        (forall self : BatchObjective,
            init_batch functions size num dirs names front = Ok self ->
            batch_size self = size /\
            num_objectives (base self)
            = resolve_num_objectives functions num /\
            py_len (directions (base self)) = num_objectives (base self) /\
            py_len (objective_names (base self))
            = num_objectives (base self) /\
            match dirs with
            | Some ds => directions (base self) = map sign_of ds
            | None => directions (base self)
                      = py_repeat 1%Z (num_objectives (base self))
            end /\
            match names with
            | Some ns => objective_names (base self) = ns
            | None => objective_names (base self) =
                      map (fun i => ("objective_" ++ str_of_nat i)%string)
                          (seq 0 (Z.to_nat (num_objectives (base self))))
            end)
        /\
        (forall ds, dirs = Some ds ->
                    py_len ds <> resolve_num_objectives functions num ->
                    exists m, init_batch functions size num dirs names front
                              = Raise (ValueError m))
        /\
        (forall ns, names = Some ns ->
                    py_len ns <> resolve_num_objectives functions num ->
                    exists m, init_batch functions size num dirs names front
                              = Raise (ValueError m))).
Proof.
  intros num dirs names front. split.
  - intros F functions Hn. apply init_lists. exact Hn.
  - intros functions size Hn.
    destruct (init_lists functions num dirs names front Hn)
      as (Hok & Hdirs & Hnames).
    split; [|split].
    + intros self H. unfold init_batch in H. bind_inv H.
      injection H as <-. simpl. split; [reflexivity|]. apply Hok. exact Ha.
    + intros ds Hd Hlen. destruct (Hdirs ds Hd Hlen) as [m Hm].
      exists m. unfold init_batch. rewrite Hm. reflexivity.
    + intros ns Hns Hlen. destruct (Hnames ns Hns Hlen) as [m Hm].
      exists m. unfold init_batch. rewrite Hm. reflexivity.
Qed.

Lemma init_keeps_supplied_lists_witness :
  exists self : Objective elementwise,
    init (inr [f_item; g_item]) None
         (Some ["minimize"; "maximize"]%string) (Some ["f"; "g"]%string) None
    = Ok self /\
    num_objectives self = 2%Z /\
    py_len (directions self) = num_objectives self /\
    py_len (objective_names self) = num_objectives self /\
    directions self = [1; -1]%Z /\
    objective_names self = ["f"; "g"]%string.
Proof.
  eexists. split; [reflexivity|].
  apply (proj1 (proj1 (init_keeps_supplied_lists
                         None (Some ["minimize"; "maximize"]%string)
                         (Some ["f"; "g"]%string) None)
                      elementwise (inr [f_item; g_item])
                      ltac:(vm_compute; discriminate))).
  reflexivity.
Defined.

(** ** Arrays and broadcasting *)

Lemma same_length_Forall (n : nat) (rows : list (list Z)) :
  same_length n rows = true <-> Forall (fun r => length r = n) rows.
Proof.
  unfold same_length. rewrite forallb_forall, Forall_forall.
  split; intros H r Hr; specialize (H r Hr).
  - apply Nat.eqb_eq. exact H.
  - apply Nat.eqb_eq. exact H.
Qed.

Lemma np_array_well_shaped (solutions : list (list Z)) (a : ndarray) :
  np_array solutions = Ok a -> well_shaped a = true.
Proof.
  destruct solutions as [|r rest]; simpl.
  - intros H. injection H as <-. reflexivity.
  - destruct (length r =? length r) eqn:Hr; simpl; [|discriminate].
    destruct (same_length (length r) rest) eqn:Hrest; [|discriminate].
    intros H. injection H as <-. simpl. rewrite Hr, Hrest. reflexivity.
Qed.

Lemma column_length (rows : list (list Z)) (j : nat) :
  length (column rows j) = length rows.
Proof. unfold column. apply length_map. Qed.

Lemma transpose_well_shaped (a : ndarray) : well_shaped (transpose a) = true.
Proof.
  destruct a as [v|n rows]; simpl; [reflexivity|].
  apply same_length_Forall. apply Forall_forall.
  intros c Hc. apply in_map_iff in Hc. destruct Hc as (j & <- & _).
  apply column_length.
Qed.

Lemma np_array_cells_well_shaped (r : list cell) (a : ndarray) :
  np_array_cells r = Ok a -> well_shaped a = true.
Proof.
  destruct r as [|[x|v0] rest].
  - simpl. intros H. injection H as <-. reflexivity.
  - unfold np_array_cells. intros H. bind_inv H. injection H as <-. reflexivity.
  - unfold np_array_cells. intros H. bind_inv H. injection H as <-. simpl.
    apply same_length_Forall.
    apply mapM_Forall2 in Ha. remember (Row v0 :: rest) as cells eqn:E.
    clear E. induction Ha as [|c row cs rows Hc _ IH]; constructor.
    + destruct c as [x|v]; simpl in Hc; [discriminate|].
      destruct (length v =? length v0) eqn:Hv; [|discriminate].
      injection Hc as <-. apply Nat.eqb_eq. exact Hv.
    + exact IH.
Qed.

Lemma np_shape_well_shaped (a : ndarray) :
  well_shaped a = true -> exists shape, np_shape a = Ok shape.
Proof.
  destruct a as [v|n rows]; simpl; intros H.
  - eexists. reflexivity.
  - rewrite H. eexists. reflexivity.
Qed.

Lemma zip_mul_ones (row ds : list Z) :
  Forall (eq 1%Z) ds -> length row = length ds -> zip_mul row ds = row.
Proof.
  intros Hds. revert row. induction Hds as [|d ds <- _ IH]; intros row Hlen.
  - destruct row; [reflexivity | discriminate].
  - destruct row as [|x row]; [discriminate|]. simpl.
    rewrite Z.mul_1_r. f_equal. apply IH. simpl in Hlen. lia.
Qed.

Lemma broadcast_row_ones (ds row : list Z) :
  Forall (eq 1%Z) ds ->
  length row = length ds \/ length ds = 1 ->
  broadcast_row ds row = row.
Proof.
  intros Hds Hlen. unfold broadcast_row.
  destruct (length row =? length ds) eqn:E.
  - apply Nat.eqb_eq in E. apply zip_mul_ones; assumption.
  - apply Nat.eqb_neq in E. destruct Hlen as [Hlen|Hlen]; [contradiction|].
    rewrite Hlen. simpl.
    destruct ds as [|d [|? ?]]; try discriminate.
    inversion Hds as [|? ? <- _]. simpl.
    rewrite <- (map_id row) at 2. apply map_ext. intros x. lia.
Qed.

(** Multiplying by directions that are all [+1] returns the array itself,
    as long as nothing has to be stretched. *)
Lemma mul_directions_ones (a : ndarray) (ds : list Z) :
  Forall (eq 1%Z) ds ->
  well_shaped a = true ->
  last_axis a = length ds \/ length ds = 1 ->
  mul_directions a ds = Ok a.
Proof.
  intros Hds Hwf Hax. destruct a as [v|n rows]; simpl in *.
  - replace (compatible (length v) (length ds)) with true.
    + rewrite broadcast_row_ones by assumption. reflexivity.
    + symmetry. unfold compatible.
      destruct Hax as [->| ->]; rewrite ?Nat.eqb_refl, ?orb_true_r;
        reflexivity.
  - replace (compatible n (length ds)) with true.
    + f_equal. f_equal.
      * unfold broadcast_width. destruct (n =? 1) eqn:E; [|reflexivity].
        apply Nat.eqb_eq in E. lia.
      * apply same_length_Forall in Hwf.
        rewrite <- (map_id rows) at 2. apply map_ext_in.
        intros r Hr. apply broadcast_row_ones; [assumption|].
        rewrite Forall_forall in Hwf. rewrite (Hwf r Hr). exact Hax.
    + symmetry. unfold compatible.
      destruct Hax as [->| ->]; rewrite ?Nat.eqb_refl, ?orb_true_r;
        reflexivity.
Qed.

Lemma repeat_ones (n : Z) : Forall (eq 1%Z) (py_repeat 1%Z n).
Proof.
  unfold py_repeat. apply Forall_forall. intros x Hx.
  apply repeat_spec in Hx. symmetry. exact Hx.
Qed.

Lemma stack_well_shaped fs items a :
  stack fs items = Ok a -> well_shaped a = true.
Proof.
  unfold stack. intros H. bind_inv H. bind_inv H.
  eapply np_array_well_shaped. exact H.
Qed.

Lemma stack_elementwise_well_shaped fs items a :
  stack_elementwise fs items = Ok a -> well_shaped a = true.
Proof.
  unfold stack_elementwise. intros H. bind_inv H. bind_inv H. bind_inv H.
  injection H as <-. apply transpose_well_shaped.
Qed.

Lemma stack_batch_well_shaped fs size items tr a :
  stack_batch fs size items = (tr, Ok a) -> well_shaped a = true.
Proof.
  unfold stack_batch. destruct (make_batches items size) as [batches|e];
    [|discriminate].
  destruct (batch_loop 0 fs batches [] []) as [tr' looped].
  intros H. injection H as _ H. bind_inv H. bind_inv H.
  eapply np_array_well_shaped. exact H.
Qed.

Lemma stack_async_well_shaped fs items tr a :
  stack_async fs items = (tr, Ok a) -> well_shaped a = true.
Proof.
  unfold stack_async. destruct (async_loop 0 fs items [] []) as [tr' looped].
  intros H. injection H as _ H. bind_inv H. bind_inv H. bind_inv H.
  injection H as <-. apply transpose_well_shaped.
Qed.

(** C9 (as stated, refuted). [BatchObjective] is constructed with
    [batch_size = 0]: no error is raised at construction time. *)
Lemma zero_batch_size_is_accepted :
  init_batch (inr [f_flat_async]) 0 None None None None
  = Ok (mkBatchObjective
          (mkObjective [f_flat_async] 1 [1%Z] ["objective_0"%string] None) 0).
Proof. reflexivity. Qed.

(** C9 (amended). [BatchObjective]'s constructor stores [batch_size]
    unvalidated: it succeeds exactly when the shared constructor does,
    whatever the size.  With [batch_size = 0] the error is deferred to
    [evaluate], which raises [ZeroDivisionError] before any objective
    function is called. *)
Theorem batch_size_is_not_validated :
  forall (functions : batched + list batched) (size : Z) (num : option Z)
         (dirs names : option (list string)) (front : option pareto_front),
    init_batch functions size num dirs names front
    = match init functions num dirs names front with
      | Ok self => Ok (mkBatchObjective self size)
      | Raise e => Raise e
      end
    /\
    forall (self : Objective batched) (items : list candidate),
      evaluate_batch (mkBatchObjective self 0) items
      = ([], Raise ZeroDivisionError).
Proof.
  intros. split.
  - unfold init_batch. destruct (init functions num dirs names front);
      reflexivity.
  - intros self items. reflexivity.
Qed.

Lemma broadcast_row_ones_stretch (ds row : list Z) :
  Forall (eq 1%Z) ds -> broadcast_row ds row = stretch_row (length ds) row.
Proof.
  intros Hds. unfold broadcast_row, stretch_row.
  destruct (length row =? length ds) eqn:E.
  - apply Nat.eqb_eq in E. apply zip_mul_ones; assumption.
  - destruct (length ds =? 1) eqn:E1.
    + destruct ds as [|d ds]; [discriminate|].
      inversion Hds as [|? ? <- _]. simpl.
      rewrite <- (map_id row) at 2. apply map_ext. intros x. lia.
    + clear E E1. induction Hds as [|d ds <- _ IH]; simpl; [reflexivity|].
      rewrite Z.mul_1_r. f_equal. exact IH.
Qed.

(** Multiplying by directions that are all [+1] only broadcasts. *)
Lemma mul_directions_ones_broadcast (a : ndarray) (ds : list Z) :
  Forall (eq 1%Z) ds -> mul_directions a ds = np_broadcast_to a (length ds).
Proof.
  intros Hds. destruct a as [v|n rows]; simpl.
  - rewrite (broadcast_row_ones_stretch v Hds). reflexivity.
  - destruct (compatible n (length ds)); [|reflexivity].
    do 2 f_equal. apply map_ext. intros r.
    apply broadcast_row_ones_stretch. exact Hds.
Qed.

(** C10. When [directions] is omitted every stored direction is [+1].
    [evaluate] then changes the sign of no entry, in any of the four
    variants: what it returns has, entry for entry, the signs of the
    stacked raw values (broadcast against the directions, as NumPy does);
    and for raw values within the 64-bit range it returns these values
    themselves. *)
Theorem default_directions_apply_no_sign :
  forall (num : option Z) (names : option (list string))
         (front : option pareto_front),
    (forall (F : Type) (functions : F + list F) (self : Objective F),
        init functions num None names front = Ok self ->
        directions self = py_repeat 1%Z (num_objectives self) /\
        Forall (eq 1%Z) (directions self))
    /\
    (forall functions (self : Objective vectorized) items a,
        init functions num None names front = Ok self ->
        stack (objective_functions self) items = Ok a ->
        (array_fits a ->
         evaluate self items = np_broadcast_to a (length (directions self)))
        /\
        (forall b, evaluate self items = Ok b ->
                   exists a', np_broadcast_to a (length (directions self))
                              = Ok a' /\
                              array_map Z.sgn b = array_map Z.sgn a'))
    /\
    (forall functions (self : Objective elementwise) items a,
        init functions num None names front = Ok self ->
        stack_elementwise (objective_functions self) items = Ok a ->
        (array_fits a ->
         evaluate_elementwise self items
         = np_broadcast_to a (length (directions self)))
        /\
        (forall b, evaluate_elementwise self items = Ok b ->
                   exists a', np_broadcast_to a (length (directions self))
                              = Ok a' /\
                              array_map Z.sgn b = array_map Z.sgn a'))
    /\
    (forall functions size (self : BatchObjective) items tr a,
        init_batch functions size num None names front = Ok self ->
        stack_batch (objective_functions (base self)) (batch_size self) items
        = (tr, Ok a) ->
        (array_fits a ->
         evaluate_batch self items
         = (tr, np_broadcast_to a (length (directions (base self)))))
        /\
        (forall b, snd (evaluate_batch self items) = Ok b ->
                   exists a', np_broadcast_to
                                a (length (directions (base self))) = Ok a' /\
                              array_map Z.sgn b = array_map Z.sgn a'))
    /\
    (forall functions (self : Objective async_elementwise) items tr a,
        init functions num None names front = Ok self ->
        stack_async (objective_functions self) items = (tr, Ok a) ->
        (array_fits a ->
         evaluate_async self items
         = (tr, np_broadcast_to a (length (directions self))))
        /\
        (forall b, snd (evaluate_async self items) = Ok b ->
                   exists a', np_broadcast_to a (length (directions self))
                              = Ok a' /\
                              array_map Z.sgn b = array_map Z.sgn a')).
Proof.
  intros num names front.
  assert (G : forall (F : Type) (functions : F + list F) (self : Objective F),
             init functions num None names front = Ok self ->
             directions self = py_repeat 1%Z (num_objectives self) /\
             Forall (eq 1%Z) (directions self)).
  { intros F functions self H.
    destruct (init_ok_inv _ _ _ _ _ H) as (_ & _ & Hd & _).
    split; [exact Hd|]. rewrite Hd. apply repeat_ones. }
  split; [exact G|]. split; [|split; [|split]].
  - intros functions self items a Hinit Hstack.
    destruct (G _ _ _ Hinit) as [_ Hones].
    assert (E : evaluate self items
                = np_broadcast_to a (length (directions self))).
    { unfold evaluate. rewrite Hstack. cbn [bind].
      apply mul_directions_ones_broadcast. exact Hones. }
    split; [intros _; exact E|].
    intros b Hb. exists b. rewrite <- E. split; [exact Hb | reflexivity].
  - intros functions self items a Hinit Hstack.
    destruct (G _ _ _ Hinit) as [_ Hones].
    assert (E : evaluate_elementwise self items
                = np_broadcast_to a (length (directions self))).
    { unfold evaluate_elementwise. rewrite Hstack. cbn [bind].
      apply mul_directions_ones_broadcast. exact Hones. }
    split; [intros _; exact E|].
    intros b Hb. exists b. rewrite <- E. split; [exact Hb | reflexivity].
  - intros functions size self items tr a Hinit Hstack.
    unfold init_batch in Hinit. bind_inv Hinit. injection Hinit as <-.
    simpl in *. destruct (G _ _ _ Ha) as [_ Hones].
    assert (E : evaluate_batch (mkBatchObjective a0 size) items
                = (tr, np_broadcast_to a (length (directions a0)))).
    { unfold evaluate_batch. simpl. rewrite Hstack. cbn [bind]. f_equal.
      apply mul_directions_ones_broadcast. exact Hones. }
    split; [intros _; exact E|].
    intros b Hb. exists b. rewrite E in Hb. simpl in Hb.
    split; [exact Hb | reflexivity].
  - intros functions self items tr a Hinit Hstack.
    destruct (G _ _ _ Hinit) as [_ Hones].
    assert (E : evaluate_async self items
                = (tr, np_broadcast_to a (length (directions self)))).
    { unfold evaluate_async. rewrite Hstack. cbn [bind]. f_equal.
      apply mul_directions_ones_broadcast. exact Hones. }
    split; [intros _; exact E|].
    intros b Hb. exists b. rewrite E in Hb. simpl in Hb.
    split; [exact Hb | reflexivity].
Qed.

Lemma default_directions_apply_no_sign_witness :
  evaluate_elementwise
    (mkObjective [f_item; g_item] 2 [1; 1]%Z
                 ["objective_0"; "objective_1"]%string None)
    sample_items
  = Ok (Mat 2 [[0; 25]; [25; 0]; [4; 9]]%Z).
Proof.
  apply (proj1 (proj1 (proj2 (proj2 (default_directions_apply_no_sign
                                       None None None)))
                      (inr [f_item; g_item])
                      (mkObjective [f_item; g_item] 2 [1; 1]%Z
                                   ["objective_0"; "objective_1"]%string None)
                      sample_items (Mat 2 [[0; 25]; [25; 0]; [4; 9]]%Z)
                      eq_refl eq_refl)).
  unfold array_fits, rows_fit, fits_int64. simpl.
  repeat constructor; lia.
Defined.

(** ** Batch partitioning *)

Lemma firstn_plus {A} (a b : nat) (l : list A) :
  firstn (a + b) l = firstn a l ++ firstn b (skipn a l).
Proof.
  revert l. induction a as [|a IH]; intros l.
  - reflexivity.
  - destruct l as [|x l]; simpl.
    + rewrite firstn_nil. reflexivity.
    + f_equal. apply IH.
Qed.

(** A slice with ordered, non-negative bounds. *)
Lemma py_slice_nonneg {A} (l : list A) (i j : Z) :
  (0 <= i <= j)%Z ->
  py_slice l i j = firstn (Z.to_nat (j - i)) (skipn (Z.to_nat i) l).
Proof.
  intros Hij. unfold py_slice, clamp_index, py_len.
  destruct (Z.ltb_spec i 0); [lia|]. destruct (Z.ltb_spec j 0); [lia|].
  set (len := Z.of_nat (length l)).
  destruct (Z.le_gt_cases i len) as [Hi|Hi].
  - rewrite (Z.min_l i len) by exact Hi.
    destruct (Z.le_gt_cases j len) as [Hj|Hj].
    + rewrite (Z.min_l j len) by exact Hj. reflexivity.
    + rewrite (Z.min_r j len) by lia.
      rewrite !firstn_all2; [reflexivity| |]; rewrite length_skipn;
        unfold len in *; lia.
  - rewrite (Z.min_r i len), (Z.min_r j len) by lia.
    rewrite Z.sub_diag. simpl.
    rewrite (skipn_all2 l) by (unfold len in *; lia).
    rewrite firstn_nil. reflexivity.
Qed.

Lemma py_slice_from_nonneg {A} (l : list A) (i : nat) :
  i <= length l -> py_slice_from l (Z.of_nat i) = skipn i l.
Proof.
  intros Hi. unfold py_slice_from, py_len.
  rewrite py_slice_nonneg by lia. rewrite Nat2Z.id.
  apply firstn_all2. rewrite length_skipn. lia.
Qed.

Lemma py_range_multiple (q b : nat) :
  0 < b ->
  py_range 0 (Z.of_nat (q * b)) (Z.of_nat b)
  = map (fun k => Z.of_nat (k * b)) (seq 0 q).
Proof.
  intros Hb. unfold py_range.
  destruct (Z.ltb_spec 0 (Z.of_nat b)); [|lia].
  replace ((Z.of_nat (q * b) - 0 + Z.of_nat b - 1) / Z.of_nat b)%Z
    with (Z.of_nat q).
  - rewrite Nat2Z.id. apply map_ext. intros k. lia.
  - apply (Z.div_unique _ _ _ (Z.of_nat b - 1)); lia.
Qed.

(** The batches as lists: [q] full chunks of [b], then the remainder. *)
Lemma make_batches_chunks {A} (items : list A) (b : nat) :
  0 < b ->
  make_batches items (Z.of_nat b)
  = Ok (map (fun k => firstn b (skipn (k * b) items))
            (seq 0 (length items / b))
        ++ (if length items mod b =? 0 then []
            else [skipn (length items / b * b) items])).
Proof.
  intros Hb. unfold make_batches, py_mod, py_len.
  destruct (Z.eqb_spec (Z.of_nat b) 0) as [E|_]; [lia|]. simpl.
  rewrite <- Nat2Z.inj_mod.
  set (n := length items). set (q := n / b). set (m := n mod b).
  assert (Hn : n = q * b + m).
  { unfold q, m. rewrite Nat.mul_comm. apply Nat.div_mod_eq. }
  assert (Hm : m < b) by (unfold m; apply Nat.mod_upper_bound; lia).
  assert (Hchunks :
            map (fun i => py_slice items i (i + Z.of_nat b))
                (py_range 0 (Z.of_nat (q * b)) (Z.of_nat b))
            = map (fun k => firstn b (skipn (k * b) items)) (seq 0 q)).
  { rewrite py_range_multiple by exact Hb. rewrite map_map.
    apply map_ext. intros k. rewrite py_slice_nonneg by lia.
    rewrite Nat2Z.id. f_equal. lia. }
  destruct (Nat.eqb_spec m 0) as [Hz|Hz].
  - rewrite Hz. simpl. rewrite app_nil_r.
    replace (Z.of_nat n) with (Z.of_nat (q * b)) by lia.
    rewrite Hchunks. reflexivity.
  - destruct (Z.eqb_spec (Z.of_nat m) 0) as [E|_]; [lia|].
    replace (Z.of_nat n - Z.of_nat m)%Z with (Z.of_nat (q * b)) by lia.
    rewrite Hchunks. rewrite py_slice_from_nonneg by (fold n; lia).
    reflexivity.
Qed.

Lemma concat_chunks {A} (l : list A) (b q : nat) :
  concat (map (fun k => firstn b (skipn (k * b) l)) (seq 0 q))
  = firstn (q * b) l.
Proof.
  induction q as [|q IH].
  - reflexivity.
  - rewrite seq_S, map_app, concat_app, IH. simpl.
    rewrite app_nil_r. rewrite <- firstn_plus. f_equal. lia.
Qed.

Lemma chunks_full {A} (l : list A) (b q : nat) :
  q * b <= length l ->
  Forall (fun c => length c = b)
         (map (fun k => firstn b (skipn (k * b) l)) (seq 0 q)).
Proof.
  intros Hq. apply Forall_forall. intros c Hc.
  apply in_map_iff in Hc. destruct Hc as (k & <- & Hk).
  apply in_seq in Hk.
  rewrite length_firstn, length_skipn. nia.
Qed.

(** The batches, concatenated, are the items (for a positive size). *)
Lemma batches_chunks_concat {A} (items : list A) (size : Z) batches :
  items <> [] ->
  (1 <= size)%Z ->
  make_batches items size = Ok batches ->
  concat batches = items /\ batches <> [].
Proof.
  intros Hne Hsize Hb.
  set (b := Z.to_nat size).
  assert (Hb0 : 0 < b) by (unfold b; lia).
  assert (Es : size = Z.of_nat b) by (unfold b; lia).
  rewrite Es, make_batches_chunks in Hb by exact Hb0.
  injection Hb as <-.
  assert (Hn : length items = length items / b * b + length items mod b).
  { rewrite Nat.mul_comm. apply Nat.div_mod_eq. }
  assert (Hcat :
            concat (map (fun k => firstn b (skipn (k * b) items))
                        (seq 0 (length items / b))
                    ++ (if length items mod b =? 0 then []
                        else [skipn (length items / b * b) items]))
            = items).
  { rewrite concat_app, concat_chunks.
    destruct (Nat.eqb_spec (length items mod b) 0) as [Hz|Hz]; simpl.
    - rewrite app_nil_r. apply firstn_all2. lia.
    - rewrite app_nil_r. apply firstn_skipn. }
  split; [exact Hcat|].
  intros E. rewrite E in Hcat. simpl in Hcat. symmetry in Hcat.
  contradiction.
Qed.

(** C4. For a population of [N >= 1] candidates and [batch_size = B >= 1],
    [BatchObjective.evaluate] splits the candidates into [ceil(N/B)] chunks
    whose concatenation is the population; every chunk but the last has
    length [B]; the last has length [N mod B], or [B] when [B] divides [N],
    and is not empty. *)
Theorem batches_partition_items :
  forall (A : Type) (items : list A) (size : Z),
    items <> [] ->
    (1 <= size)%Z ->
    exists batches,
      make_batches items size = Ok batches /\
      py_len batches = ((py_len items + size - 1) / size)%Z /\
      concat batches = items /\
      exists full last,
        batches = full ++ [last] /\
        Forall (fun c => py_len c = size) full /\
        py_len last = (if (py_len items mod size =? 0)%Z then size
                       else (py_len items mod size)%Z) /\
        last <> [].
Proof.
  intros A items size Hne Hsize.
  set (b := Z.to_nat size).
  assert (Hb : 0 < b) by (unfold b; lia).
  assert (Es : size = Z.of_nat b) by (unfold b; lia).
  rewrite Es. rewrite make_batches_chunks by exact Hb.
  eexists. split; [reflexivity|].
  unfold py_len. rewrite <- Nat2Z.inj_mod.
  set (n := length items). set (q := n / b). set (m := n mod b).
  assert (Hn : n = q * b + m).
  { unfold q, m. rewrite Nat.mul_comm. apply Nat.div_mod_eq. }
  assert (Hm : m < b) by (unfold m; apply Nat.mod_upper_bound; lia).
  assert (Hpos : 0 < n).
  { unfold n. destruct items; [contradiction | simpl; lia]. }
  destruct (Nat.eqb_spec m 0) as [Hz|Hz].
  - (* [B] divides [N] *)
    rewrite app_nil_r.
    destruct q as [|q'] eqn:Eq; [lia|].
    split; [|split].
    + rewrite length_map, length_seq.
      apply (Z.div_unique _ _ _ (Z.of_nat b - 1)); lia.
    + rewrite concat_chunks. apply firstn_all2. fold n. lia.
    + exists (map (fun k => firstn b (skipn (k * b) items)) (seq 0 q')),
        (firstn b (skipn (q' * b) items)).
      split; [|split; [|split]].
      * rewrite seq_S, map_app. reflexivity.
      * assert (Hf := @chunks_full A items b q' ltac:(fold n; lia)).
        eapply Forall_impl; [|exact Hf]. simpl. intros c Hc. lia.
      * destruct (Z.eqb_spec (Z.of_nat m) 0) as [_|E]; [|lia].
        rewrite length_firstn, length_skipn. fold n. lia.
      * intros Hnil. apply (f_equal (@length A)) in Hnil.
        rewrite length_firstn, length_skipn in Hnil. fold n in Hnil.
        simpl in Hnil. lia.
  - (* a shorter last chunk *)
    split; [|split].
    + rewrite length_app, length_map, length_seq. simpl.
      apply (Z.div_unique _ _ _ (Z.of_nat m - 1)); lia.
    + rewrite concat_app, concat_chunks. simpl. rewrite app_nil_r.
      apply firstn_skipn.
    + exists (map (fun k => firstn b (skipn (k * b) items)) (seq 0 q)),
        (skipn (q * b) items).
      split; [|split; [|split]].
      * reflexivity.
      * assert (Hf := @chunks_full A items b q ltac:(fold n; lia)).
        eapply Forall_impl; [|exact Hf]. simpl. intros c Hc. lia.
      * destruct (Z.eqb_spec (Z.of_nat m) 0) as [E|_]; [lia|].
        rewrite length_skipn. fold n. lia.
      * intros Hnil. apply (f_equal (@length A)) in Hnil.
        rewrite length_skipn in Hnil. fold n in Hnil. simpl in Hnil. lia.
Qed.

Lemma batches_partition_items_witness :
  exists batches,
    make_batches sample_items 2 = Ok batches /\
    py_len batches = 2%Z /\
    concat batches = sample_items /\
    exists full last,
      batches = full ++ [last] /\
      Forall (fun c => py_len c = 2%Z) full /\
      py_len last = 1%Z /\
      last <> [].
Proof.
  apply (@batches_partition_items candidate sample_items 2).
  - discriminate.
  - lia.
Defined.

(** ** Shape normalisation *)

Lemma foldM_ext {A B} (f g : B -> A -> outcome B) (acc : B) (xs : list A) :
  (forall b x, In x xs -> f b x = g b x) -> foldM f acc xs = foldM g acc xs.
Proof.
  revert acc. induction xs as [|x xs IH]; simpl; intros acc H.
  - reflexivity.
  - rewrite (H acc x (or_introl eq_refl)).
    destruct (g acc x) as [acc'|e]; simpl; [|reflexivity].
    apply IH. intros b y Hy. apply H. right. exact Hy.
Qed.

(** A loop that appends one piece per element computes the pieces first
    and concatenates them. *)
Lemma foldM_pieces {A B} (piece : A -> outcome (list B)) (xs : list A)
    (acc : list B) :
  foldM (fun sols x => p <- piece x ;; Ok (sols ++ p)) acc xs
  = (ps <- mapM piece xs ;; Ok (acc ++ concat ps)).
Proof.
  revert acc. induction xs as [|x xs IH]; simpl; intros acc.
  - rewrite app_nil_r. reflexivity.
  - destruct (piece x) as [p|e]; simpl; [|reflexivity].
    rewrite IH. destruct (mapM piece xs) as [ps|e]; simpl; [|reflexivity].
    rewrite app_assoc. reflexivity.
Qed.

Lemma append_result_well_shaped (sols : list (list Z)) (r : ndarray) :
  well_shaped r = true -> append_result sols r = Ok (sols ++ rows_of r).
Proof.
  intros H. unfold append_result.
  destruct (np_shape_well_shaped r H) as [shape ->]. reflexivity.
Qed.

Lemma append_transposed_well_shaped (sols : list (list Z)) (a : ndarray) :
  well_shaped a = true ->
  append_transposed sols a = Ok (sols ++ columns_of a).
Proof.
  intros H. unfold append_transposed, columns_of.
  destruct a as [v|n rows]; simpl in *.
  - reflexivity.
  - rewrite H. reflexivity.
Qed.

Lemma foldM_append_result (rs : list ndarray) (acc : list (list Z)) :
  forallb well_shaped rs = true ->
  foldM append_result acc rs = Ok (acc ++ concat (map rows_of rs)).
Proof.
  revert acc. induction rs as [|r rs IH]; simpl; intros acc H.
  - rewrite app_nil_r. reflexivity.
  - apply andb_true_iff in H. destruct H as [Hr Hrs].
    rewrite append_result_well_shaped by exact Hr. simpl.
    rewrite IH by exact Hrs. rewrite app_assoc. reflexivity.
Qed.

Lemma foldM_append_transposed (arrays : list ndarray) (acc : list (list Z)) :
  forallb well_shaped arrays = true ->
  foldM append_transposed acc arrays
  = Ok (acc ++ concat (map columns_of arrays)).
Proof.
  revert acc. induction arrays as [|a arrays IH]; simpl; intros acc H.
  - rewrite app_nil_r. reflexivity.
  - apply andb_true_iff in H. destruct H as [Ha Hrest].
    rewrite append_transposed_well_shaped by exact Ha. simpl.
    rewrite IH by exact Hrest. rewrite app_assoc. reflexivity.
Qed.

Lemma foldM_cells (result : list (list cell)) (acc : list (list Z)) :
  foldM (fun sols r => a <- np_array_cells r ;; append_transposed sols a)
        acc result
  = (arrays <- mapM np_array_cells result ;;
     Ok (acc ++ concat (map columns_of arrays))).
Proof.
  revert acc. induction result as [|r result IH]; simpl; intros acc.
  - rewrite app_nil_r. reflexivity.
  - destruct (np_array_cells r) as [a|e] eqn:Hr; simpl; [|reflexivity].
    rewrite append_transposed_well_shaped
      by (eapply np_array_cells_well_shaped; exact Hr).
    simpl. rewrite IH.
    destruct (mapM np_array_cells result) as [arrays|e]; simpl;
      [|reflexivity].
    rewrite app_assoc. reflexivity.
Qed.

(** Every column taken from the results of [N] calls has [N] entries. *)
Lemma np_array_cells_columns (r : list cell) (a : ndarray) :
  np_array_cells r = Ok a ->
  Forall (fun c => length c = length r) (columns_of a).
Proof.
  intros H. destruct r as [|[x|v0] rest].
  - simpl in H. injection H as <-. repeat constructor.
  - unfold np_array_cells in H. bind_inv H. injection H as <-.
    apply mapM_length in Ha. repeat constructor. exact Ha.
  - unfold np_array_cells in H. bind_inv H. injection H as <-.
    apply mapM_length in Ha. unfold columns_of. simpl.
    apply Forall_forall. intros c Hc. apply in_map_iff in Hc.
    destruct Hc as (j & <- & _). rewrite column_length. exact Ha.
Qed.

Lemma Forall_concat {A} (P : A -> Prop) (ls : list (list A)) :
  Forall (Forall P) ls -> Forall P (concat ls).
Proof.
  induction 1 as [|l ls Hl _ IH]; simpl.
  - constructor.
  - apply Forall_app. split; assumption.
Qed.

(** Stacking [n]-long columns and transposing gives [n] rows. *)
Lemma np_array_transpose_rows (solutions : list (list Z)) (n : nat)
    (arr : ndarray) :
  Forall (fun c => length c = n) solutions ->
  np_array solutions = Ok arr ->
  solutions = [] /\ arr = Vec [] \/
  solutions <> [] /\
  transpose arr = Mat (length solutions) (map (column solutions) (seq 0 n)).
Proof.
  intros Hall H. destruct solutions as [|c rest].
  - left. simpl in H. injection H as <-. split; reflexivity.
  - right. split; [discriminate|].
    unfold np_array in H.
    destruct (same_length (length c) (c :: rest)); [|discriminate].
    injection H as <-. simpl.
    inversion Hall as [|? ? Hc _]; subst. reflexivity.
Qed.

Lemma mul_directions_rows (n : nat) (rows : list (list Z)) (ds : list Z)
    (a : ndarray) :
  mul_directions (Mat n rows) ds = Ok a ->
  a = Mat (broadcast_width n (length ds)) (map (broadcast_row ds) rows).
Proof.
  simpl. destruct (compatible n (length ds)); [|discriminate].
  intros H. injection H as <-. reflexivity.
Qed.

(** ** Element-wise evaluation of scalar functions *)

Lemma mapM_map {A B C} (f : B -> outcome C) (h : A -> B) (xs : list A) :
  mapM f (map h xs) = mapM (fun x => f (h x)) xs.
Proof.
  induction xs as [|x xs IH]; simpl; [reflexivity|].
  rewrite IH. reflexivity.
Qed.

Lemma mapM_ext_in {A B} (f g : A -> outcome B) (xs : list A) :
  (forall x, In x xs -> f x = g x) -> mapM f xs = mapM g xs.
Proof.
  induction xs as [|x xs IH]; simpl; intros H; [reflexivity|].
  rewrite (H x (or_introl eq_refl)).
  rewrite IH by (intros y Hy; apply H; right; exact Hy). reflexivity.
Qed.

Lemma concat_map_singleton {A B} (h : A -> B) (l : list A) :
  concat (map (fun x => [h x]) l) = map h l.
Proof. induction l as [|x l IH]; simpl; [reflexivity | rewrite IH; reflexivity]. Qed.

Lemma np_array_cells_nums {A} (g : A -> Z) (xs : list A) :
  np_array_cells (map (fun x => Num (g x)) xs) = Ok (Vec (map g xs)).
Proof.
  assert (H : mapM as_num (map (fun x => Num (g x)) xs) = Ok (map g xs)).
  { rewrite mapM_map. apply mapM_ok_map. reflexivity. }
  destruct xs as [|x xs]; [reflexivity|].
  unfold np_array_cells. simpl map at 1.
  cbv beta iota. rewrite H. reflexivity.
Qed.

(** Reading a table of columns row by row. *)
Lemma transpose_table {A B} (h : A -> B -> Z) (fs : list A) (items : list B) :
  map (column (map (fun f => map (h f) items) fs)) (seq 0 (length items))
  = map (fun x => map (fun f => h f x) fs) items.
Proof.
  induction items as [|x items IH].
  - reflexivity.
  - change (seq 0 (length (x :: items)))
      with (0 :: seq 1 (length items)).
    change (map (fun y => map (fun f => h f y) fs) (x :: items))
      with (map (fun f => h f x) fs
            :: map (fun y => map (fun f => h f y) fs) items).
    rewrite <- IH, <- seq_shift.
    change (map ?F (0 :: ?l)) with (F 0 :: map F l).
    f_equal.
    + unfold column. rewrite map_map. reflexivity.
    + rewrite map_map. apply map_ext. intros j.
      unfold column. rewrite !map_map. reflexivity.
Qed.

Lemma same_length_map {A} (h : A -> list Z) (n : nat) (l : list A) :
  (forall x, In x l -> length (h x) = n) -> same_length n (map h l) = true.
Proof.
  intros H. apply same_length_Forall. apply Forall_forall.
  intros r Hr. apply in_map_iff in Hr. destruct Hr as (x & <- & Hx).
  apply H. exact Hx.
Qed.

(** The stacked array of scalar functions called item by item: one row
    per candidate, one column per function. *)
Lemma stack_cells_scalar {A} (g : A -> candidate -> Z) (fs : list A)
    (items : list candidate) :
  fs <> [] ->
  (arrays <- mapM (fun f => np_array_cells (map (fun x => Num (g f x)) items))
                  fs ;;
   arr <- np_array (concat (map columns_of arrays)) ;;
   Ok (transpose arr))
  = Ok (Mat (length fs) (map (fun x => map (fun f => g f x) fs) items)).
Proof.
  intros Hfs.
  rewrite (mapM_ok_map _ (fun f => Vec (map (g f) items)))
    by (intros f _; apply np_array_cells_nums).
  simpl. rewrite map_map. unfold columns_of. simpl.
  rewrite concat_map_singleton.
  destruct fs as [|f fs]; [contradiction|].
  unfold np_array. simpl map at 1. cbv iota.
  change (map (g f) items :: map (fun f0 => map (g f0) items) fs)
    with (map (fun f0 => map (g f0) items) (f :: fs)).
  rewrite same_length_map
    by (intros h _; rewrite !length_map; reflexivity).
  simpl bind. unfold transpose. rewrite !length_map.
  rewrite <- (transpose_table g (f :: fs) items). reflexivity.
Qed.

Lemma stack_elementwise_scalar (fs : list elementwise)
    (items : list candidate) :
  fs <> [] ->
  (forall f x, In f fs -> In x items -> exists v, f x = Ok (Num v)) ->
  stack_elementwise fs items
  = Ok (Mat (length fs) (map (fun x => map (fun f => scalar_value f x) fs)
                             items)).
Proof.
  intros Hfs Hcalls. unfold stack_elementwise.
  rewrite (mapM_ok_map _ (fun f => map (fun x => Num (scalar_value f x)) items)).
  - simpl. rewrite foldM_cells. simpl. rewrite mapM_map.
    rewrite <- (stack_cells_scalar scalar_value items Hfs).
    destruct (mapM _ fs); reflexivity.
  - intros f Hf. apply mapM_ok_map. intros x Hx.
    destruct (Hcalls f x Hf Hx) as [v Hv].
    unfold scalar_value. rewrite Hv. reflexivity.
Qed.

Lemma broadcast_row_same_length (ds row : list Z) :
  length row = length ds -> broadcast_row ds row = zip_mul row ds.
Proof.
  intros H. unfold broadcast_row. rewrite H, Nat.eqb_refl. reflexivity.
Qed.

(** With one direction per column, each row is multiplied entry by entry. *)
Lemma mul_directions_columnwise (rows : list (list Z)) (ds : list Z) :
  Forall (fun r => length r = length ds) rows ->
  mul_directions (Mat (length ds) rows) ds
  = Ok (Mat (length ds) (map (fun r => zip_mul r ds) rows)).
Proof.
  intros H. simpl. unfold compatible. rewrite Nat.eqb_refl. simpl.
  f_equal. f_equal.
  - unfold broadcast_width. destruct (length ds =? 1); reflexivity.
  - apply map_ext_in. intros r Hr. apply broadcast_row_same_length.
    rewrite Forall_forall in H. apply H. exact Hr.
Qed.

Lemma evaluate_elementwise_scalar (self : Objective elementwise)
    (items : list candidate) :
  objective_functions self <> [] ->
  length (directions self) = length (objective_functions self) ->
  (forall f x, In f (objective_functions self) -> In x items ->
               exists v, f x = Ok (Num v)) ->
  evaluate_elementwise self items
  = Ok (Mat (length (objective_functions self))
            (map (signed_row (objective_functions self) (directions self))
                 items)).
Proof.
  intros Hfs Hlen Hcalls. unfold evaluate_elementwise.
  rewrite stack_elementwise_scalar by assumption. cbn [bind].
  rewrite <- Hlen. rewrite mul_directions_columnwise.
  - rewrite map_map. reflexivity.
  - apply Forall_forall. intros r Hr. apply in_map_iff in Hr.
    destruct Hr as (x & <- & _). rewrite length_map. symmetry. exact Hlen.
Qed.

(** ** Joint waits *)

Lemma first_failure_in {B} (tasks : list (nat * outcome B)) t e :
  first_failure tasks = Some (t, e) -> In (t, Raise e) tasks.
Proof.
  revert t e. induction tasks as [|[t0 [b|e0]] rest IH]; simpl; intros t e H.
  - discriminate.
  - right. apply IH. exact H.
  - destruct (first_failure rest) as [[t' e']|] eqn:Hrest.
    + destruct (t' <? t0).
      * injection H as <- <-. right. apply IH. reflexivity.
      * injection H as <- <-. left. reflexivity.
    + injection H as <- <-. left. reflexivity.
Qed.

Lemma first_failure_none {B} (tasks : list (nat * outcome B)) :
  first_failure tasks = None <->
  forall task, In task tasks -> is_ok (snd task) = true.
Proof.
  induction tasks as [|[t0 [b|e0]] rest IH]; simpl.
  - split; [intros _ task [] | reflexivity].
  - rewrite IH. split.
    + intros H task [<-|Hin]; [reflexivity | apply H; exact Hin].
    + intros H task Hin. apply H. right. exact Hin.
  - split.
    + destruct (first_failure rest) as [[t' e']|]; [|discriminate].
      destruct (t' <? t0); discriminate.
    + intros H. specialize (H (t0, Raise e0) (or_introl eq_refl)).
      discriminate.
Qed.

(** A joint wait in which every task succeeds returns the results in
    submission order, whenever the tasks finish. *)
Lemma gather_all_ok {A B} (f : coroutine_function A B) (args : list A) :
  (forall x, In x args -> is_ok (awaited f x) = true) ->
  gather (map (run f) args) = mapM (awaited f) args.
Proof.
  intros H. unfold gather.
  replace (first_failure (map (run f) args)) with (@None (nat * exn)).
  - rewrite mapM_map. reflexivity.
  - symmetry. apply first_failure_none. intros task Hin.
    apply in_map_iff in Hin. destruct Hin as (x & <- & Hx).
    apply H. exact Hx.
Qed.

(** A joint wait in which some task fails raises what one of the failing
    tasks raised. *)
Lemma gather_some_failed {A B} (f : coroutine_function A B) (args : list A) :
  (exists x, In x args /\ is_ok (awaited f x) = false) ->
  exists x e, In x args /\ awaited f x = Raise e /\
              gather (map (run f) args) = Raise e.
Proof.
  intros [x [Hx Hfail]]. unfold gather.
  destruct (first_failure (map (run f) args)) as [[t e]|] eqn:Hff.
  - apply first_failure_in in Hff. apply in_map_iff in Hff.
    destruct Hff as (y & Hy & Hin). exists y, e.
    split; [exact Hin|]. split; [|reflexivity].
    unfold awaited. rewrite Hy. reflexivity.
  - exfalso. rewrite first_failure_none in Hff.
    specialize (Hff (run f x) (in_map _ _ _ Hx)).
    unfold awaited in Hfail. rewrite Hff in Hfail. discriminate.
Qed.

Lemma gather_ok_inv {A B} (f : coroutine_function A B) (args : list A)
    (outputs : list B) :
  gather (map (run f) args) = Ok outputs ->
  mapM (awaited f) args = Ok outputs.
Proof.
  unfold gather.
  destruct (first_failure (map (run f) args)) as [[t e]|]; [discriminate|].
  rewrite mapM_map. intros H. exact H.
Qed.

(** ** The loop over the functions *)

Lemma batch_loop_group idx fs batches tr result :
  batch_loop idx fs batches tr result
  = group_loop np_concatenate (fun _ => ValueError BatchNeedsAsync)
               idx fs batches tr result.
Proof.
  revert idx tr result. induction fs as [|f fs IH]; intros idx tr result.
  - reflexivity.
  - simpl. unfold batch_async_evaluate.
    destruct (is_coroutine f); simpl; [|reflexivity].
    destruct (gather (map (run f) batches)) as [outputs|e]; [|reflexivity].
    destruct (np_concatenate outputs) as [r|e]; [|reflexivity].
    apply IH.
Qed.

Lemma async_loop_group idx fs items tr result :
  async_loop idx fs items tr result
  = group_loop np_array_cells (fun i => ValueError (AsyncNeedsAsync i))
               idx fs items tr result.
Proof.
  revert idx tr result. induction fs as [|f fs IH]; intros idx tr result.
  - reflexivity.
  - simpl. unfold async_evaluate.
    destruct (is_coroutine f); simpl; [|reflexivity].
    destruct (gather (map (run f) items)) as [outputs|e]; [|reflexivity].
    destruct (np_array_cells outputs) as [r|e]; [|reflexivity].
    apply IH.
Qed.

Lemma dispatch_all_S {A} (idx n : nat) (args : list A) :
  dispatch_all idx (S n) args
  = map (fun x => (idx, x)) args ++ dispatch_all (S idx) n args.
Proof. reflexivity. Qed.

Lemma in_dispatch_all {A} (idx n : nat) (args : list A) (k : nat) (x : A) :
  In (k, x) (dispatch_all idx n args) <-> (idx <= k < idx + n) /\ In x args.
Proof.
  unfold dispatch_all. rewrite in_flat_map. split.
  - intros (j & Hj & Hin). apply in_seq in Hj.
    apply in_map_iff in Hin. destruct Hin as (y & Hy & Hin).
    injection Hy as <- <-. split; [lia | exact Hin].
  - intros [Hk Hx]. exists k. split; [apply in_seq; lia|].
    apply in_map. exact Hx.
Qed.

Section GroupLoopFacts.
Context {A B : Type}.
Variable convert : list B -> outcome ndarray.
Variable refusal : nat -> exn.

Local Abbreviation loop := (group_loop (A:=A) convert refusal).

(** The calls dispatched are those of the first [n] functions, each on
    every argument; these functions are coroutine functions; and [n]
    counts all the functions when the loop completes. *)
Lemma group_loop_trace idx fs (args : list A) tr result :
  exists n,
    n <= length fs /\
    fst (loop idx fs args tr result) = tr ++ dispatch_all idx n args /\
    Forall (fun f => is_coroutine f = true) (firstn n fs) /\
    (is_ok (snd (loop idx fs args tr result)) = true -> n = length fs).
Proof.
  revert idx tr result. induction fs as [|f fs IH]; intros idx tr result.
  - exists 0. simpl. rewrite app_nil_r. repeat split; auto.
  - simpl. destruct (is_coroutine f) eqn:Hco; simpl.
    + destruct (gather (map (run f) args)) as [outputs|e].
      * destruct (convert outputs) as [r|e].
        -- destruct (IH (S idx) (tr ++ map (fun x => (idx, x)) args)
                        (result ++ [r])) as (n & Hn & Htr & Hall & Hok).
           exists (S n). split; [lia|]. split; [|split].
           ++ rewrite Htr, dispatch_all_S, app_assoc. reflexivity.
           ++ simpl. constructor; assumption.
           ++ intros H. f_equal. apply Hok. exact H.
        -- exists 1. simpl. split; [lia|]. split; [|split].
           ++ unfold dispatch_all. simpl. rewrite app_nil_r. reflexivity.
           ++ repeat constructor. exact Hco.
           ++ discriminate.
      * exists 1. simpl. split; [lia|]. split; [|split].
        -- unfold dispatch_all. simpl. rewrite app_nil_r. reflexivity.
        -- repeat constructor. exact Hco.
        -- discriminate.
    + exists 0. simpl. rewrite app_nil_r. split; [lia|].
      split; [reflexivity|]. split; [constructor | discriminate].
Qed.

(** The loop over [pre ++ rest] runs [pre], then [rest] from where
    [pre] stopped. *)
Lemma group_loop_app idx pre rest (args : list A) tr result :
  loop idx (pre ++ rest) args tr result
  = match loop idx pre args tr result with
    | (tr', Ok result') => loop (idx + length pre) rest args tr' result'
    | (tr', Raise e) => (tr', Raise e)
    end.
Proof.
  revert idx tr result. induction pre as [|f pre IH]; intros idx tr result.
  - simpl. rewrite Nat.add_0_r. reflexivity.
  - simpl. destruct (is_coroutine f); simpl; [|reflexivity].
    destruct (gather (map (run f) args)) as [outputs|e]; [|reflexivity].
    destruct (convert outputs) as [r|e]; [|reflexivity].
    rewrite IH. replace (S idx + length pre) with (idx + S (length pre))
      by lia. reflexivity.
Qed.
End GroupLoopFacts.

Section GroupLoopOutcomes.
Context {A B : Type}.
Variable convert : list B -> outcome ndarray.
Variable refusal : nat -> exn.

Local Abbreviation loop := (group_loop (A:=A) convert refusal).

(** No call is ever dispatched to a function that is not a coroutine
    function, and the loop does not complete if there is one. *)
Lemma group_loop_refuses idx pre f post (args : list A) tr result :
  is_coroutine f = false ->
  (forall k x, In (k, x) (fst (loop idx (pre ++ f :: post) args tr result))
               -> In (k, x) tr \/ k < idx + length pre) /\
  is_ok (snd (loop idx (pre ++ f :: post) args tr result)) = false /\
  (is_ok (snd (loop idx pre args tr result)) = true ->
   snd (loop idx (pre ++ f :: post) args tr result)
   = Raise (refusal (idx + length pre))).
Proof.
  intros Hf.
  destruct (group_loop_trace convert refusal idx (pre ++ f :: post) args
                             tr result) as (n & Hn & Htr & Hall & Hok).
  assert (Hle : n <= length pre).
  { destruct (Nat.le_gt_cases n (length pre)) as [H|H]; [exact H|].
    exfalso. rewrite Forall_forall in Hall.
    assert (Hin : In f (firstn n (pre ++ f :: post))).
    { rewrite firstn_app. apply in_or_app. right.
      destruct (n - length pre) as [|d] eqn:E; [lia|].
      simpl. left. reflexivity. }
    specialize (Hall f Hin). congruence. }
  split; [|split].
  - intros k x Hin. rewrite Htr in Hin. apply in_app_or in Hin.
    destruct Hin as [Hin|Hin]; [left; exact Hin|].
    right. apply in_dispatch_all in Hin. lia.
  - destruct (is_ok (snd (loop idx (pre ++ f :: post) args tr result)))
      eqn:E; [|reflexivity].
    specialize (Hok eq_refl). rewrite length_app in Hok. simpl in Hok. lia.
  - intros Hpre. rewrite group_loop_app.
    destruct (loop idx pre args tr result) as [tr' [result'|e]];
      [|discriminate].
    simpl. rewrite Hf. reflexivity.
Qed.

(** When a call of a function fails, after the functions before it
    completed, the loop raises what one of its failing calls raised, with
    the whole group of that function dispatched. *)
Lemma group_loop_fails idx pre f post (args : list A) tr result :
  is_ok (snd (loop idx pre args tr result)) = true ->
  is_coroutine f = true ->
  (exists x, In x args /\ is_ok (awaited f x) = false) ->
  exists x e,
    In x args /\ awaited f x = Raise e /\
    loop idx (pre ++ f :: post) args tr result
    = (tr ++ dispatch_all idx (S (length pre)) args, Raise e).
Proof.
  intros Hpre Hf Hfail.
  destruct (gather_some_failed f args Hfail) as (x & e & Hx & Hfx & Hg).
  exists x, e. split; [exact Hx|]. split; [exact Hfx|].
  rewrite group_loop_app.
  destruct (group_loop_trace convert refusal idx pre args tr result)
    as (n & Hn & Htr & _ & Hok).
  destruct (loop idx pre args tr result) as [tr' [result'|e']];
    [|discriminate].
  simpl in Htr, Hok. rewrite (Hok eq_refl) in Htr.
  simpl. rewrite Hf, Hg. simpl. rewrite Htr.
  f_equal. rewrite <- app_assoc. f_equal.
  unfold dispatch_all. rewrite seq_S, flat_map_app. simpl.
  rewrite app_nil_r. reflexivity.
Qed.

(** When every function is a coroutine function and every call succeeds,
    the loop computes what calling the functions one after the other
    computes. *)
Lemma group_loop_all_ok idx fs (args : list A) tr result :
  Forall (fun f => is_coroutine f = true) fs ->
  (forall f x, In f fs -> In x args -> is_ok (awaited f x) = true) ->
  snd (loop idx fs args tr result)
  = (arrays <- mapM (fun f => outputs <- mapM (awaited f) args ;;
                              convert outputs) fs ;;
     Ok (result ++ arrays)).
Proof.
  revert idx tr result. induction fs as [|f fs IH];
    intros idx tr result Hco Hcalls.
  - simpl. rewrite app_nil_r. reflexivity.
  - inversion Hco as [|? ? Hf Hrest]; subst. simpl. rewrite Hf. simpl.
    rewrite gather_all_ok
      by (intros x Hx; apply Hcalls; [left; reflexivity | exact Hx]).
    destruct (mapM (awaited f) args) as [outputs|e]; simpl; [|reflexivity].
    destruct (convert outputs) as [r|e]; simpl; [|reflexivity].
    rewrite IH; [|exact Hrest|].
    + destruct (mapM _ fs) as [arrays|e]; simpl; [|reflexivity].
      rewrite <- app_assoc. reflexivity.
    + intros g x Hg Hx. apply Hcalls; [right; exact Hg | exact Hx].
Qed.

(** In that case the calls dispatched are all of them, function by
    function, if the conversions succeed. *)
Lemma group_loop_complete_trace idx fs (args : list A) tr result :
  is_ok (snd (loop idx fs args tr result)) = true ->
  fst (loop idx fs args tr result)
  = tr ++ dispatch_all idx (length fs) args.
Proof.
  intros Hok.
  destruct (group_loop_trace convert refusal idx fs args tr result)
    as (n & _ & Htr & _ & Hn).
  rewrite Htr, (Hn Hok). reflexivity.
Qed.
End GroupLoopOutcomes.

Lemma group_loop_complete_trace_async fs (items : list candidate) :
  is_ok (snd (async_loop 0 fs items [] [])) = true ->
  fst (async_loop 0 fs items [] []) = dispatch_all 0 (length fs) items.
Proof.
  rewrite async_loop_group. intros H.
  rewrite (group_loop_complete_trace _ _ _ _ _ _ _ H). reflexivity.
Qed.

Lemma group_loop_complete_trace_batch fs (batches : list (list candidate)) :
  is_ok (snd (batch_loop 0 fs batches [] [])) = true ->
  fst (batch_loop 0 fs batches [] []) = dispatch_all 0 (length fs) batches.
Proof.
  rewrite batch_loop_group. intros H.
  rewrite (group_loop_complete_trace _ _ _ _ _ _ _ H). reflexivity.
Qed.

(** ** Errors during evaluation *)

Lemma mapM_raise_inv {A B} (f : A -> outcome B) (xs : list A) (e : exn) :
  mapM f xs = Raise e -> exists x, In x xs /\ f x = Raise e.
Proof.
  induction xs as [|x xs IH]; simpl; intros H.
  - discriminate.
  - destruct (f x) as [y|e'] eqn:Hfx; simpl in H.
    + destruct (mapM f xs) as [ys|e'']; simpl in H; [discriminate|].
      injection H as ->. destruct (IH eq_refl) as (z & Hz & Hfz).
      exists z. split; [right; exact Hz | exact Hfz].
    + injection H as ->. exists x. split; [left; reflexivity | exact Hfx].
Qed.

Lemma evaluate_batch_unfold (self : BatchObjective) items batches :
  make_batches items (batch_size self) = Ok batches ->
  evaluate_batch self items
  = (fst (batch_loop 0 (objective_functions (base self)) batches [] []),
     arr <- (result <- snd (batch_loop 0 (objective_functions (base self))
                                       batches [] []) ;;
             solutions <- foldM append_result [] result ;;
             np_array solutions) ;;
     mul_directions arr (directions (base self))).
Proof.
  intros H. unfold evaluate_batch, stack_batch. rewrite H.
  destruct (batch_loop 0 (objective_functions (base self)) batches [] []).
  reflexivity.
Qed.

Lemma evaluate_async_unfold (self : Objective async_elementwise) items :
  evaluate_async self items
  = (fst (async_loop 0 (objective_functions self) items [] []),
     arr <- (result <- snd (async_loop 0 (objective_functions self)
                                       items [] []) ;;
             solutions <- foldM append_transposed [] result ;;
             arr <- np_array solutions ;;
             Ok (transpose arr)) ;;
     mul_directions arr (directions self)).
Proof.
  unfold evaluate_async, stack_async.
  destruct (async_loop 0 (objective_functions self) items [] []).
  reflexivity.
Qed.

(** C5. An exception raised by an objective function during [evaluate]
    reaches the caller as it was raised, and no matrix is returned.  For
    the two synchronous variants this is the exception of the first failing
    call.  For the two asynchronous variants it is the exception of one of
    the failing calls of the first function with a failing call (the
    functions before it having completed); that function's whole group was
    dispatched and none of its results is returned. *)
Theorem user_exception_propagates :
  (forall (self : Objective vectorized) (items : list candidate),
      (exists f, In f (objective_functions self) /\
                 is_ok (f items) = false) ->
      exists f e,
        In f (objective_functions self) /\ f items = Raise e /\
        evaluate self items = Raise e)
  /\
  (forall (self : Objective elementwise) (items : list candidate),
      (exists f x, In f (objective_functions self) /\ In x items /\
                   is_ok (f x) = false) ->
      exists f x e,
        In f (objective_functions self) /\ In x items /\ f x = Raise e /\
        evaluate_elementwise self items = Raise e)
  /\
  (forall (self : BatchObjective) (items : list candidate) batches pre f post,
      make_batches items (batch_size self) = Ok batches ->
      objective_functions (base self) = pre ++ f :: post ->
      is_ok (snd (batch_loop 0 pre batches [] [])) = true ->
      is_coroutine f = true ->
      (exists batch, In batch batches /\ is_ok (awaited f batch) = false) ->
      exists batch e,
        In batch batches /\ awaited f batch = Raise e /\
        evaluate_batch self items
        = (dispatch_all 0 (S (length pre)) batches, Raise e))
  /\
  (forall (self : Objective async_elementwise) (items : list candidate)
          pre f post,
      objective_functions self = pre ++ f :: post ->
      is_ok (snd (async_loop 0 pre items [] [])) = true ->
      is_coroutine f = true ->
      (exists x, In x items /\ is_ok (awaited f x) = false) ->
      exists x e,
        In x items /\ awaited f x = Raise e /\
        evaluate_async self items
        = (dispatch_all 0 (S (length pre)) items, Raise e)).
Proof.
  split; [|split; [|split]].
  - intros self items Hfail.
    destruct (mapM_raise (fun f => f items) (objective_functions self) Hfail)
      as (pre & f & post & e & Hfs & _ & Hf & Hm).
    exists f, e. split; [|split].
    + rewrite Hfs. apply in_or_app. right. left. reflexivity.
    + exact Hf.
    + unfold evaluate, stack. rewrite Hm. reflexivity.
  - intros self items (f & x & Hf & Hx & Hfx).
    assert (Hinner : is_ok (mapM f items) = false).
    { destruct (mapM_raise f items (ex_intro _ x (conj Hx Hfx)))
        as (? & ? & ? & e & _ & _ & _ & ->). reflexivity. }
    destruct (mapM_raise (fun g => mapM g items) (objective_functions self)
                         (ex_intro _ f (conj Hf Hinner)))
      as (pre & g & post & e & Hfs & _ & Hg & Hm).
    destruct (mapM_raise_inv _ _ Hg) as (y & Hy & Hgy).
    exists g, y, e. split; [|split; [|split]].
    + rewrite Hfs. apply in_or_app. right. left. reflexivity.
    + exact Hy.
    + exact Hgy.
    + unfold evaluate_elementwise, stack_elementwise. rewrite Hm.
      reflexivity.
  - intros self items batches pre f post Hb Hfs Hpre Hco Hfail.
    rewrite batch_loop_group in Hpre.
    destruct (group_loop_fails np_concatenate
                (fun _ => ValueError BatchNeedsAsync) 0 pre f post batches
                [] [] Hpre Hco Hfail) as (batch & e & Hin & Hfb & Hloop).
    exists batch, e. split; [exact Hin|]. split; [exact Hfb|].
    rewrite (evaluate_batch_unfold self items Hb).
    rewrite Hfs, batch_loop_group. unfold batched in *.
    rewrite Hloop. reflexivity.
  - intros self items pre f post Hfs Hpre Hco Hfail.
    rewrite async_loop_group in Hpre.
    destruct (group_loop_fails np_array_cells
                (fun i => ValueError (AsyncNeedsAsync i)) 0 pre f post items
                [] [] Hpre Hco Hfail) as (x & e & Hin & Hfx & Hloop).
    exists x, e. split; [exact Hin|]. split; [exact Hfx|].
    rewrite evaluate_async_unfold.
    rewrite Hfs, async_loop_group. unfold async_elementwise in *.
    rewrite Hloop. reflexivity.
Qed.

Lemma user_exception_propagates_witness :
  exists x e,
    In x sample_items /\ awaited raising_item_async x = Raise e /\
    evaluate_async
      (mkObjective [f_item_async; raising_item_async] 2 [1; 1]%Z
                   ["objective_0"; "objective_1"]%string None)
      sample_items
    = (dispatch_all 0 2 sample_items, Raise e).
Proof.
  apply (proj2 (proj2 (proj2 user_exception_propagates))
           (mkObjective [f_item_async; raising_item_async] 2 [1; 1]%Z
                        ["objective_0"; "objective_1"]%string None)
           sample_items [f_item_async] raising_item_async []).
  - reflexivity.
  - reflexivity.
  - reflexivity.
  - exists [5%Z]. split; [right; left; reflexivity | reflexivity].
Defined.

(** C6. In [BatchObjective] and [AsyncElementWiseObjective] a function
    that is not a coroutine function is never called: no task of it is
    dispatched, [evaluate] returns no matrix, and once the functions
    before it have completed [evaluate] raises the calling-convention
    [ValueError]. *)
Theorem synchronous_function_is_refused :
  (forall (self : BatchObjective) (items : list candidate) pre f post,
      objective_functions (base self) = pre ++ f :: post ->
      is_coroutine f = false ->
      (forall batch, ~ In (length pre, batch) (fst (evaluate_batch self items)))
      /\ is_ok (snd (evaluate_batch self items)) = false
      /\ (forall batches,
             make_batches items (batch_size self) = Ok batches ->
             is_ok (snd (batch_loop 0 pre batches [] [])) = true ->
             snd (evaluate_batch self items)
             = Raise (ValueError BatchNeedsAsync)))
  /\
  (forall (self : Objective async_elementwise) (items : list candidate)
          pre f post,
      objective_functions self = pre ++ f :: post ->
      is_coroutine f = false ->
      (forall x, ~ In (length pre, x) (fst (evaluate_async self items)))
      /\ is_ok (snd (evaluate_async self items)) = false
      /\ (is_ok (snd (async_loop 0 pre items [] [])) = true ->
          snd (evaluate_async self items)
          = Raise (ValueError (AsyncNeedsAsync (length pre))))).
Proof.
  split.
  - intros self items pre f post Hfs Hf.
    destruct (make_batches items (batch_size self)) as [batches|e] eqn:Hb.
    + rewrite (evaluate_batch_unfold self items Hb).
      rewrite Hfs, batch_loop_group. unfold batched in *.
      destruct (group_loop_refuses np_concatenate
                  (fun _ => ValueError BatchNeedsAsync) 0 pre f post batches
                  [] [] Hf) as (Htr & Hfail & Herr).
      cbn [fst snd]. split; [|split].
      * intros batch Hin. destruct (Htr _ _ Hin) as [[]|Hlt]. simpl in Hlt. lia.
      * destruct (snd (group_loop _ _ 0 (pre ++ f :: post) batches [] []));
          [discriminate | reflexivity].
      * intros batches' Hb' Hpre. injection Hb' as <-.
        rewrite batch_loop_group in Hpre. rewrite (Herr Hpre). reflexivity.
    + unfold evaluate_batch, stack_batch. rewrite Hb. cbn [fst snd bind].
      split; [|split].
      * intros batch [].
      * reflexivity.
      * intros batches' Hb'. discriminate.
  - intros self items pre f post Hfs Hf.
    rewrite evaluate_async_unfold.
    rewrite Hfs, async_loop_group. unfold async_elementwise in *.
    destruct (group_loop_refuses np_array_cells
                (fun i => ValueError (AsyncNeedsAsync i)) 0 pre f post items
                [] [] Hf) as (Htr & Hfail & Herr).
    cbn [fst snd]. split; [|split].
    + intros x Hin. destruct (Htr _ _ Hin) as [[]|Hlt]. simpl in Hlt. lia.
    + destruct (snd (group_loop _ _ 0 (pre ++ f :: post) items [] []));
        [discriminate | reflexivity].
    + intros Hpre. rewrite async_loop_group in Hpre.
      rewrite (Herr Hpre). reflexivity.
Qed.

Lemma synchronous_function_is_refused_witness :
  (forall batch,
      ~ In (1, batch)
           (fst (evaluate_batch
                   (mkBatchObjective
                      (mkObjective [f_flat_async; f_flat_sync] 2 [1; 1]%Z
                                   ["objective_0"; "objective_1"]%string None)
                      2)
                   sample_items)))
  /\ is_ok (snd (evaluate_batch
                   (mkBatchObjective
                      (mkObjective [f_flat_async; f_flat_sync] 2 [1; 1]%Z
                                   ["objective_0"; "objective_1"]%string None)
                      2)
                   sample_items)) = false
  /\ snd (evaluate_batch
            (mkBatchObjective
               (mkObjective [f_flat_async; f_flat_sync] 2 [1; 1]%Z
                            ["objective_0"; "objective_1"]%string None)
               2)
            sample_items)
     = Raise (ValueError BatchNeedsAsync).
Proof.
  destruct (proj1 synchronous_function_is_refused
              (mkBatchObjective
                 (mkObjective [f_flat_async; f_flat_sync] 2 [1; 1]%Z
                              ["objective_0"; "objective_1"]%string None)
                 2)
              sample_items [f_flat_async] f_flat_sync [] eq_refl eq_refl)
    as (H1 & H2 & H3).
  split; [exact H1|]. split; [exact H2|].
  apply (H3 [[[0]; [5]]; [[2]]]%Z); reflexivity.
Defined.

(** ** The asynchronous element-wise variant as the synchronous one *)

Lemma mapM_all_ok {A} (f : A -> outcome cell) (xs : list A) :
  (forall x, In x xs -> is_ok (f x) = true) ->
  mapM f xs = Ok (map (cell_value f) xs).
Proof.
  intros H. apply mapM_ok_map. intros x Hx. specialize (H x Hx).
  unfold cell_value. destruct (f x); [reflexivity | discriminate].
Qed.

Lemma mapM_well_shaped {A} (h : A -> outcome ndarray) (xs : list A) arrays :
  (forall x a, h x = Ok a -> well_shaped a = true) ->
  mapM h xs = Ok arrays -> forallb well_shaped arrays = true.
Proof.
  intros Hh H. apply mapM_Forall2 in H.
  induction H as [|x a xs arrays Hx _ IH]; simpl; [reflexivity|].
  rewrite (Hh x a Hx), IH. reflexivity.
Qed.

Lemma evaluate_async_as_elementwise :
  forall (self : Objective async_elementwise) (items : list candidate),
    Forall (fun f => is_coroutine f = true) (objective_functions self) ->
    (forall f x, In f (objective_functions self) -> In x items ->
                 is_ok (awaited f x) = true) ->
    snd (evaluate_async self items)
    = evaluate_elementwise (synchronous_form self) items.
Proof.
  intros self items Hco Hcalls.
  rewrite evaluate_async_unfold. cbn [snd].
  rewrite async_loop_group, group_loop_all_ok by assumption.
  unfold evaluate_elementwise, stack_elementwise, synchronous_form.
  cbn [objective_functions directions].
  rewrite mapM_map.
  rewrite (mapM_ext_in
             (fun f => outputs <- mapM (awaited f) items ;;
                       np_array_cells outputs)
             (fun f => np_array_cells (map (cell_value (awaited f)) items)))
    by (intros f Hf; rewrite mapM_all_ok by (intros x Hx; apply Hcalls;
                                              assumption); reflexivity).
  rewrite (mapM_ok_map (fun f => mapM (awaited f) items)
                       (fun f => map (cell_value (awaited f)) items))
    by (intros f Hf; apply mapM_all_ok; intros x Hx; apply Hcalls;
        assumption).
  cbn [bind]. rewrite foldM_cells, mapM_map.
  unfold async_elementwise in *.
  destruct (mapM (fun f => np_array_cells (map (cell_value (awaited f)) items))
                 (objective_functions self)) as [arrays|e] eqn:Harrays;
    [|reflexivity].
  cbn [bind]. simpl app.
  rewrite foldM_append_transposed.
  - reflexivity.
  - eapply mapM_well_shaped; [|exact Harrays].
    intros f a Ha. eapply np_array_cells_well_shaped. exact Ha.
Qed.

(** ** The shape and signs of the fitness matrix *)

(** C2 (the code at the failing input). Two vectorized functions, each
    returning one value per candidate, with directions minimize and
    maximize, on the two candidates [[1]] and [[2]]: the functions are the
    rows and the candidates the columns, so the signs follow the
    candidates.  [f] on the second candidate (4) is negated although [f]
    is minimized, [g] on the first candidate (16) is not although [g] is
    maximized; on three candidates the multiplication is refused. *)
Lemma vectorized_signs_follow_candidates :
  exists self : Objective vectorized,
    init (inr [f_flat; g_flat]) None
         (Some ["minimize"; "maximize"]%string) None None = Ok self /\
    evaluate self [[1]; [2]]%Z = Ok (Mat 2 [[1; -4]; [16; -9]]%Z) /\
    evaluate self sample_items = Raise (ValueError NoBroadcast).
Proof. eexists. repeat split. Qed.

(** C3 (the code at the failing input). The same function, given once as
    a vectorized function and once as a per-item function, evaluated on the
    same three candidates: one row of three entries against three rows of
    one entry. *)
Lemma vectorized_and_elementwise_differ :
  f_flat sample_items
  = Ok (Vec (map (scalar_value f_item) sample_items)) /\
  evaluate (mkObjective [f_flat] 1 [1%Z] ["objective_0"%string] None)
           sample_items
  = Ok (Mat 3 [[0; 25; 4]]%Z) /\
  evaluate_elementwise
    (mkObjective [f_item] 1 [1%Z] ["objective_0"%string] None) sample_items
  = Ok (Mat 1 [[0]; [25]; [4]]%Z).
Proof. repeat split. Qed.

(** C1 (as stated, refuted). The objective set of the repository's test,
    built from one function that returns two objectives per candidate, has
    [num_objectives = 1]; on three candidates [evaluate] returns three rows
    of two columns. *)
Lemma columns_are_not_num_objectives :
  exists (self : Objective vectorized) (a : ndarray),
    init (inr [f_table]) None None None None = Ok self /\
    evaluate self [[1; 1]; [2; 2]; [3; 0]]%Z = Ok a /\
    np_shape a = Ok [3; 2] /\
    np_shape a <> Ok [3; Z.to_nat (num_objectives self)].
Proof.
  eexists. eexists. split; [reflexivity|]. split; [reflexivity|].
  split; [reflexivity|]. simpl. discriminate.
Qed.

Lemma stack_single_table (k : nat) (rows : list (list Z)) :
  same_length k rows = true ->
  rows <> [] ->
  (solutions <- foldM append_result [] [Mat k rows] ;; np_array solutions)
  = Ok (Mat k rows).
Proof.
  intros Hk Hne. simpl. unfold append_result. simpl. rewrite Hk. simpl.
  destruct rows as [|r rows]; [contradiction|].
  unfold np_array.
  assert (Hr : length r = k).
  { apply same_length_Forall in Hk. inversion Hk. assumption. }
  rewrite Hr, Hk. reflexivity.
Qed.

Lemma np_concatenate_tables (k : nat) (tables : list (list (list Z))) :
  tables <> [] ->
  Forall (fun rows => same_length k rows = true) tables ->
  np_concatenate (map (Mat k) tables) = Ok (Mat k (concat tables)).
Proof.
  intros Hne Hall. unfold np_concatenate.
  replace (forallb well_shaped (map (Mat k) tables)) with true.
  - destruct tables as [|t tables]; [contradiction|].
    simpl negb. cbv iota. simpl map at 1. cbv iota.
    change (Mat k t :: map (Mat k) tables) with (map (Mat k) (t :: tables)).
    rewrite mapM_map.
    rewrite (mapM_ok_map _ (fun rows => rows)).
    + rewrite map_id. reflexivity.
    + intros rows _. simpl. rewrite Nat.eqb_refl. reflexivity.
  - symmetry. apply forallb_forall. intros a Ha.
    apply in_map_iff in Ha. destruct Ha as (rows & <- & Hin).
    rewrite Forall_forall in Hall. apply Hall. exact Hin.
Qed.

Lemma same_length_concat (k : nat) (tables : list (list (list Z))) :
  Forall (fun rows => same_length k rows = true) tables ->
  same_length k (concat tables) = true.
Proof.
  intros H. apply same_length_Forall. apply Forall_concat.
  eapply Forall_impl; [|exact H]. intros rows Hrows.
  apply same_length_Forall. exact Hrows.
Qed.

Lemma length_concat_map {A B} (h : list A -> list B) (ls : list (list A)) :
  (forall l, In l ls -> length (h l) = length l) ->
  length (concat (map h ls)) = length (concat ls).
Proof.
  induction ls as [|l ls IH]; simpl; intros H; [reflexivity|].
  rewrite !length_app, IH, (H l) by auto. reflexivity.
Qed.

Lemma evaluate_single_table (self : Objective vectorized)
    (items : list candidate) f k rows :
  objective_functions self = [f] ->
  f items = Ok (Mat k rows) ->
  same_length k rows = true ->
  rows <> [] ->
  evaluate self items = mul_directions (Mat k rows) (directions self).
Proof.
  intros Hfs Hf Hk Hne. unfold evaluate, stack. rewrite Hfs. simpl mapM.
  rewrite Hf. cbn [bind].
  rewrite (stack_single_table k Hk Hne). reflexivity.
Qed.

Lemma evaluate_async_scalar (self : Objective async_elementwise)
    (items : list candidate) :
  objective_functions self <> [] ->
  Forall (fun f => is_coroutine f = true) (objective_functions self) ->
  length (directions self) = length (objective_functions self) ->
  (forall f x, In f (objective_functions self) -> In x items ->
               exists v, awaited f x = Ok (Num v)) ->
  evaluate_async self items
  = (dispatch_all 0 (length (objective_functions self)) items,
     Ok (Mat (length (objective_functions self))
             (map (signed_row (map awaited (objective_functions self))
                              (directions self))
                  items))).
Proof.
  intros Hfs Hco Hlen Hcalls.
  set (fs := objective_functions self) in *.
  set (g := fun (f : async_elementwise) x => scalar_value (awaited f) x).
  assert (Hloop :
            snd (async_loop 0 fs items [] [])
            = Ok (map (fun f => Vec (map (g f) items)) fs)).
  { rewrite async_loop_group. rewrite group_loop_all_ok.
    - rewrite (mapM_ok_map _ (fun f => Vec (map (g f) items))).
      + reflexivity.
      + intros f Hf.
        rewrite (mapM_ok_map _ (fun x => Num (g f x))).
        * cbn [bind]. apply np_array_cells_nums.
        * intros x Hx. destruct (Hcalls f x Hf Hx) as [v Hv].
          unfold g, scalar_value. rewrite Hv. reflexivity.
    - exact Hco.
    - intros f x Hf Hx. destruct (Hcalls f x Hf Hx) as [v ->]. reflexivity. }
  rewrite evaluate_async_unfold. fold fs.
  rewrite (group_loop_complete_trace_async fs items)
    by (rewrite Hloop; reflexivity).
  f_equal. rewrite Hloop. cbn [bind].
  rewrite foldM_append_transposed
    by (apply forallb_forall; intros a Ha; apply in_map_iff in Ha;
        destruct Ha as (f & <- & _); reflexivity).
  assert (Hs := stack_cells_scalar g items Hfs).
  rewrite (mapM_ok_map _ (fun f => Vec (map (g f) items))) in Hs
    by (intros f _; apply np_array_cells_nums).
  cbn [bind] in Hs. simpl app. cbn [bind]. rewrite Hs. cbn [bind].
  rewrite <- Hlen. rewrite mul_directions_columnwise.
  - unfold signed_row. rewrite !map_map. f_equal. f_equal.
    apply map_ext. intros x. rewrite map_map. reflexivity.
  - apply Forall_forall. intros r Hr. apply in_map_iff in Hr.
    destruct Hr as (x & <- & _). rewrite length_map. symmetry. exact Hlen.
Qed.

Lemma evaluate_batch_table (self : BatchObjective) (items : list candidate)
    batches f k :
  objective_functions (base self) = [f] ->
  is_coroutine f = true ->
  make_batches items (batch_size self) = Ok batches ->
  (forall batch, In batch batches ->
                 exists rows, awaited f batch = Ok (Mat k rows) /\
                              same_length k rows = true) ->
  concat (map (table_of f) batches) <> [] ->
  evaluate_batch self items
  = (dispatch_all 0 1 batches,
     mul_directions (Mat k (concat (map (table_of f) batches)))
                    (directions (base self))).
Proof.
  intros Hfs Hco Hb Htables Hne.
  assert (Hbatches : batches <> []).
  { intros ->. apply Hne. reflexivity. }
  assert (Hall : Forall (fun rows => same_length k rows = true)
                        (map (table_of f) batches)).
  { apply Forall_forall. intros rows Hrows. apply in_map_iff in Hrows.
    destruct Hrows as (batch & <- & Hin).
    destruct (Htables batch Hin) as (rows & Hf & Hk).
    unfold table_of. rewrite Hf. exact Hk. }
  assert (Hloop :
            snd (batch_loop 0 [f] batches [] [])
            = Ok [Mat k (concat (map (table_of f) batches))]).
  { rewrite batch_loop_group. rewrite group_loop_all_ok.
    - simpl mapM.
      rewrite (mapM_ok_map _ (fun batch => Mat k (table_of f batch))).
      + cbn [bind]. rewrite <- (map_map (table_of f) (Mat k)).
        rewrite np_concatenate_tables; [reflexivity| |exact Hall].
        destruct batches; [contradiction | discriminate].
      + intros batch Hin. destruct (Htables batch Hin) as (rows & Hf & _).
        unfold table_of. rewrite Hf. reflexivity.
    - repeat constructor. exact Hco.
    - intros g batch [<-|[]] Hin.
      destruct (Htables batch Hin) as (rows & -> & _). reflexivity. }
  rewrite (evaluate_batch_unfold self items Hb). rewrite Hfs.
  rewrite group_loop_complete_trace_batch by (rewrite Hloop; reflexivity).
  rewrite Hloop. cbn [bind].
  rewrite (stack_single_table k (same_length_concat k Hall) Hne).
  reflexivity.
Qed.

Lemma map_nth_seq (r : list Z) :
  map (fun j => nth j r 0%Z) (seq 0 (length r)) = r.
Proof.
  induction r as [|x r IH]; [reflexivity|].
  simpl. f_equal. rewrite <- seq_shift, map_map. exact IH.
Qed.

Lemma mapM_as_num_inv (cs : list cell) (v : list Z) :
  mapM as_num cs = Ok v -> cs = map Num v.
Proof.
  revert v. induction cs as [|c cs IH]; simpl; intros v H.
  - injection H as <-. reflexivity.
  - destruct c as [x|r]; simpl in H; [|discriminate].
    destruct (mapM as_num cs) as [v'|e]; simpl in H; [|discriminate].
    injection H as <-. simpl. f_equal. apply IH. reflexivity.
Qed.

Lemma mapM_as_row_inv (k : nat) (cs : list cell) (rows : list (list Z)) :
  mapM (as_row k) cs = Ok rows ->
  cs = map Row rows /\ Forall (fun r => length r = k) rows.
Proof.
  revert rows. induction cs as [|c cs IH]; simpl; intros rows H.
  - injection H as <-. split; [reflexivity | constructor].
  - destruct c as [x|r]; simpl in H; [discriminate|].
    destruct (length r =? k) eqn:Hr; simpl in H; [|discriminate].
    destruct (mapM (as_row k) cs) as [rows'|e]; simpl in H; [|discriminate].
    injection H as <-. destruct (IH rows' eq_refl) as [-> Hall].
    split; [reflexivity|]. constructor; [|exact Hall].
    apply Nat.eqb_eq. exact Hr.
Qed.

(** The columns NumPy reads from the results of one function: as many
    as the function returns values for a candidate, the same number for
    every candidate. *)
Lemma np_array_cells_spec (c0 : cell) (cs : list cell) (a : ndarray) :
  np_array_cells (c0 :: cs) = Ok a ->
  Forall (fun c => length (cell_values c) = length (cell_values c0))
         (c0 :: cs) /\
  columns_of a
  = map (fun j => map (fun c => nth j (cell_values c) 0%Z) (c0 :: cs))
        (seq 0 (length (cell_values c0))).
Proof.
  intros H. destruct c0 as [x|v0]; unfold np_array_cells in H;
    bind_inv H; injection H as <-.
  - apply mapM_as_num_inv in Ha. rewrite Ha. split.
    + apply Forall_forall. intros c Hc. apply in_map_iff in Hc.
      destruct Hc as (y & <- & _). reflexivity.
    + unfold columns_of. simpl. rewrite map_map. simpl.
      rewrite map_id. reflexivity.
  - apply mapM_as_row_inv in Ha. destruct Ha as [Hcs Hall]. rewrite Hcs.
    split.
    + apply Forall_forall. intros c Hc. apply in_map_iff in Hc.
      destruct Hc as (r & <- & Hr). simpl.
      rewrite Forall_forall in Hall. apply Hall. exact Hr.
    + unfold columns_of. simpl. apply map_ext. intros j.
      rewrite map_map. reflexivity.
Qed.

Lemma np_array_transpose_columns {B} (gs : list (B -> Z)) (items : list B) :
  gs <> [] ->
  (arr <- np_array (map (fun g => map g items) gs) ;; Ok (transpose arr))
  = Ok (Mat (length gs) (map (fun x => map (fun g => g x) gs) items)).
Proof.
  intros Hne. destruct gs as [|g gs]; [contradiction|].
  unfold np_array. simpl map at 1. cbv iota.
  change (map g items :: map (fun g0 => map g0 items) gs)
    with (map (fun g0 => map g0 items) (g :: gs)).
  rewrite same_length_map
    by (intros h _; rewrite !length_map; reflexivity).
  cbn [bind]. unfold transpose. rewrite !length_map.
  rewrite <- (transpose_table (fun g0 x => g0 x) (g :: gs) items).
  reflexivity.
Qed.

(** The stacked array of [ElementWiseObjective]: one row per candidate,
    holding what the functions return for it. *)
Lemma stack_elementwise_general (fs : list elementwise) (x0 : candidate)
    (rest : list candidate) :
  (forall f x, In f fs -> In x (x0 :: rest) -> is_ok (f x) = true) ->
  (forall f, In f fs ->
             is_ok (np_array_cells (map (cell_value f) (x0 :: rest))) = true) ->
  raw_row fs x0 <> [] ->
  stack_elementwise fs (x0 :: rest)
  = Ok (Mat (length (raw_row fs x0)) (map (raw_row fs) (x0 :: rest))) /\
  forall x, In x (x0 :: rest) ->
            length (raw_row fs x) = length (raw_row fs x0).
Proof.
  intros Hcalls Hconv Hne.
  set (items := x0 :: rest) in *.
  set (values := fun (f : elementwise) (x : candidate) =>
                   cell_values (cell_value f x)).
  set (colfun := fun (f : elementwise) (j : nat) (x : candidate) =>
                   nth j (values f x) 0%Z).
  set (arity := fun f : elementwise => length (values f x0)).
  set (gs := flat_map (fun f => map (colfun f) (seq 0 (arity f))) fs).
  assert (Hspec : forall f, In f fs ->
            exists a, np_array_cells (map (cell_value f) items) = Ok a /\
                      (forall x, In x items -> length (values f x) = arity f) /\
                      columns_of a
                      = map (fun g => map g items)
                            (map (colfun f) (seq 0 (arity f)))).
  { intros f Hf. specialize (Hconv f Hf).
    destruct (np_array_cells (map (cell_value f) items)) as [a|e] eqn:Ha;
      [|discriminate].
    exists a. split; [reflexivity|].
    unfold items in Ha. simpl map in Ha.
    destruct (@np_array_cells_spec _ _ _ Ha) as [Hall Hcols]. split.
    - intros x Hx. rewrite Forall_forall in Hall.
      apply (Hall (cell_value f x)).
      change (cell_value f x0 :: map (cell_value f) rest)
        with (map (cell_value f) items).
      apply in_map. exact Hx.
    - rewrite Hcols, map_map. apply map_ext. intros j.
      change (cell_value f x0 :: map (cell_value f) rest)
        with (map (cell_value f) items).
      rewrite map_map. reflexivity. }
  assert (Hrow : forall x, In x items ->
                           map (fun g => g x) gs = raw_row fs x).
  { intros x Hx. unfold gs, raw_row.
    rewrite !flat_map_concat_map, concat_map, map_map. f_equal.
    apply map_ext_in. intros f Hf. rewrite map_map.
    destruct (Hspec f Hf) as (_ & _ & Hlen & _).
    rewrite <- (Hlen x Hx).
    exact (map_nth_seq (cell_values (cell_value f x))). }
  assert (Hx0 : In x0 items) by (left; reflexivity).
  assert (Hlen : length gs = length (raw_row fs x0)).
  { rewrite <- (Hrow x0 Hx0), length_map. reflexivity. }
  assert (Hgs : gs <> []).
  { intros E. apply Hne. rewrite <- (Hrow x0 Hx0), E. reflexivity. }
  split.
  - unfold stack_elementwise.
    rewrite (mapM_ok_map _ (fun f => map (cell_value f) items))
      by (intros f Hf; apply mapM_all_ok; intros x Hx; apply Hcalls;
          assumption).
    cbn [bind]. rewrite foldM_cells, mapM_map.
    set (array_of := fun f : elementwise =>
                       match np_array_cells (map (cell_value f) items) with
                       | Ok a => a
                       | Raise _ => Vec []
                       end).
    rewrite (mapM_ok_map _ array_of)
      by (intros f Hf; unfold array_of;
          destruct (Hspec f Hf) as (a & -> & _); reflexivity).
    cbn [bind app].
    assert (Hsols : concat (map columns_of (map array_of fs))
                    = map (fun g => map g items) gs).
    { unfold gs. rewrite flat_map_concat_map, concat_map, !map_map.
      f_equal. apply map_ext_in. intros f Hf. unfold array_of.
      destruct (Hspec f Hf) as (a & -> & _ & Hcols). exact Hcols. }
    rewrite Hsols, (np_array_transpose_columns items Hgs), Hlen.
    do 2 f_equal. apply map_ext_in. intros x Hx. apply Hrow. exact Hx.
  - intros x Hx. rewrite <- (Hrow x Hx), length_map. exact Hlen.
Qed.

Lemma zip_mul_length (r ds : list Z) :
  length r = length ds -> length (zip_mul r ds) = length ds.
Proof.
  revert ds. induction r as [|x r IH]; intros [|d ds] H; try discriminate.
  - reflexivity.
  - simpl. f_equal. apply IH. simpl in H. lia.
Qed.

Lemma broadcast_row_length (ds row : list Z) :
  compatible (length row) (length ds) = true ->
  length (broadcast_row ds row)
  = broadcast_width (length row) (length ds).
Proof.
  unfold compatible, broadcast_row, broadcast_width. intros H.
  destruct (Nat.eqb_spec (length row) (length ds)) as [E|E].
  - rewrite zip_mul_length by exact E.
    destruct (length row =? 1); [reflexivity | symmetry; exact E].
  - destruct (Nat.eqb_spec (length ds) 1) as [E1|E1].
    + rewrite length_map.
      destruct (Nat.eqb_spec (length row) 1) as [E2|E2]; [lia | reflexivity].
    + simpl in H. rewrite H, length_map. reflexivity.
Qed.

(** A table of [C]-long rows times broadcastable directions: the rows are
    multiplied one by one, and the result has the same number of rows. *)
Lemma mul_directions_table (C : nat) (rows : list (list Z)) (ds : list Z) :
  compatible C (length ds) = true ->
  Forall (fun r => length r = C) rows ->
  mul_directions (Mat C rows) ds
  = Ok (Mat (broadcast_width C (length ds)) (map (broadcast_row ds) rows)) /\
  np_shape (Mat (broadcast_width C (length ds)) (map (broadcast_row ds) rows))
  = Ok [length rows; broadcast_width C (length ds)].
Proof.
  intros Hc Hall. split.
  - simpl. rewrite Hc. reflexivity.
  - simpl. rewrite same_length_map, length_map; [reflexivity|].
    intros r Hr. rewrite Forall_forall in Hall.
    rewrite <- (Hall r Hr) in *. apply broadcast_row_length. exact Hc.
Qed.

Lemma evaluate_elementwise_general (self : Objective elementwise)
    (x0 : candidate) (rest : list candidate) :
  (forall f x, In f (objective_functions self) -> In x (x0 :: rest) ->
               is_ok (f x) = true) ->
  (forall f, In f (objective_functions self) ->
             is_ok (np_array_cells (map (cell_value f) (x0 :: rest))) = true) ->
  raw_row (objective_functions self) x0 <> [] ->
  compatible (length (raw_row (objective_functions self) x0))
             (length (directions self)) = true ->
  evaluate_elementwise self (x0 :: rest)
  = Ok (Mat (broadcast_width (length (raw_row (objective_functions self) x0))
                             (length (directions self)))
            (map (fun x => broadcast_row (directions self)
                                         (raw_row (objective_functions self) x))
                 (x0 :: rest))) /\
  np_shape (Mat (broadcast_width
                   (length (raw_row (objective_functions self) x0))
                   (length (directions self)))
                (map (fun x => broadcast_row
                                 (directions self)
                                 (raw_row (objective_functions self) x))
                     (x0 :: rest)))
  = Ok [length (x0 :: rest);
        broadcast_width (length (raw_row (objective_functions self) x0))
                        (length (directions self))].
Proof.
  intros Hcalls Hconv Hne Hc.
  destruct (stack_elementwise_general _ Hcalls Hconv Hne) as [Hstack Hlen].
  destruct (@mul_directions_table
              (length (raw_row (objective_functions self) x0))
              (map (raw_row (objective_functions self)) (x0 :: rest))
              (directions self) Hc) as [Hmul Hshape].
  { apply Forall_forall. intros r Hr. apply in_map_iff in Hr.
    destruct Hr as (x & <- & Hx). apply Hlen. exact Hx. }
  rewrite map_map in Hmul, Hshape. rewrite length_map in Hshape.
  split; [|exact Hshape].
  unfold evaluate_elementwise. rewrite Hstack. cbn [bind]. exact Hmul.
Qed.

(** C1 (amended). For [N >= 1] candidates, [evaluate] returns a matrix
    with exactly [N] rows, row [i] for candidate [i], and as many columns
    as the functions return values for a candidate (a single column being
    stretched to the number of directions); this number is not tied to
    [num_objectives].  It holds for [ElementWiseObjective] and
    [AsyncElementWiseObjective] with functions returning a number or a
    vector of fixed length per candidate, and for [Objective] and
    [BatchObjective] with one function returning a table of one row per
    candidate.  Row [i] is the raw row of candidate [i] multiplied by the
    directions (stated for directions [1] or [-1] and raw values within
    the 64-bit range). *)
Theorem fitness_matrix_shape :
  (forall (self : Objective elementwise) (x0 : candidate)
          (rest : list candidate),
      (forall f x, In f (objective_functions self) -> In x (x0 :: rest) ->
                   is_ok (f x) = true) ->
      (forall f, In f (objective_functions self) ->
                 is_ok (np_array_cells (map (cell_value f) (x0 :: rest)))
                 = true) ->
      raw_row (objective_functions self) x0 <> [] ->
      compatible (length (raw_row (objective_functions self) x0))
                 (length (directions self)) = true ->
      exists rows',
        evaluate_elementwise self (x0 :: rest)
        = Ok (Mat (broadcast_width
                     (length (raw_row (objective_functions self) x0))
                     (length (directions self))) rows') /\
        np_shape (Mat (broadcast_width
                         (length (raw_row (objective_functions self) x0))
                         (length (directions self))) rows')
        = Ok [length (x0 :: rest);
              broadcast_width (length (raw_row (objective_functions self) x0))
                              (length (directions self))] /\
        (unit_directions (directions self) ->
         (forall x, In x (x0 :: rest) ->
                    Forall fits_int64 (raw_row (objective_functions self) x)) ->
         rows' = map (fun x => broadcast_row
                                 (directions self)
                                 (raw_row (objective_functions self) x))
                     (x0 :: rest)))
  /\
  (forall (self : Objective async_elementwise) (x0 : candidate)
          (rest : list candidate),
      Forall (fun f => is_coroutine f = true) (objective_functions self) ->
      (forall f x, In f (objective_functions self) -> In x (x0 :: rest) ->
                   is_ok (awaited f x) = true) ->
      (forall f, In f (objective_functions self) ->
                 is_ok (np_array_cells
                          (map (cell_value (awaited f)) (x0 :: rest)))
                 = true) ->
      raw_row (map awaited (objective_functions self)) x0 <> [] ->
      compatible (length (raw_row (map awaited (objective_functions self)) x0))
                 (length (directions self)) = true ->
      exists rows',
        snd (evaluate_async self (x0 :: rest))
        = Ok (Mat (broadcast_width
                     (length (raw_row (map awaited (objective_functions self))
                                      x0))
                     (length (directions self))) rows') /\
        np_shape (Mat (broadcast_width
                         (length (raw_row
                                    (map awaited (objective_functions self))
                                    x0))
                         (length (directions self))) rows')
        = Ok [length (x0 :: rest);
              broadcast_width
                (length (raw_row (map awaited (objective_functions self)) x0))
                (length (directions self))] /\
        (unit_directions (directions self) ->
         (forall x, In x (x0 :: rest) ->
                    Forall fits_int64
                           (raw_row (map awaited (objective_functions self))
                                    x)) ->
         rows' = map (fun x => broadcast_row
                                 (directions self)
                                 (raw_row
                                    (map awaited (objective_functions self))
                                    x))
                     (x0 :: rest)))
  /\
  (forall (self : Objective vectorized) (items : list candidate) f k rows,
      items <> [] ->
      objective_functions self = [f] ->
      f items = Ok (Mat k rows) ->
      same_length k rows = true ->
      length rows = length items ->
      compatible k (length (directions self)) = true ->
      exists rows',
        evaluate self items
        = Ok (Mat (broadcast_width k (length (directions self))) rows') /\
        np_shape (Mat (broadcast_width k (length (directions self))) rows')
        = Ok [length items; broadcast_width k (length (directions self))] /\
        (unit_directions (directions self) -> rows_fit rows ->
         rows' = map (broadcast_row (directions self)) rows))
  /\
  (forall (self : BatchObjective) (items : list candidate) batches f k,
      items <> [] ->
      (1 <= batch_size self)%Z ->
      objective_functions (base self) = [f] ->
      is_coroutine f = true ->
      make_batches items (batch_size self) = Ok batches ->
      (forall batch, In batch batches ->
                     exists rows, awaited f batch = Ok (Mat k rows) /\
                                  same_length k rows = true /\
                                  length rows = length batch) ->
      compatible k (length (directions (base self))) = true ->
      exists rows',
        snd (evaluate_batch self items)
        = Ok (Mat (broadcast_width k (length (directions (base self)))) rows')
        /\
        np_shape (Mat (broadcast_width k (length (directions (base self))))
                      rows')
        = Ok [length items;
              broadcast_width k (length (directions (base self)))] /\
        (unit_directions (directions (base self)) ->
         rows_fit (concat (map (table_of f) batches)) ->
         rows' = map (broadcast_row (directions (base self)))
                     (concat (map (table_of f) batches)))).
Proof.
  split; [|split; [|split]].
  - intros self x0 rest Hcalls Hconv Hne Hc.
    destruct (evaluate_elementwise_general self Hcalls Hconv Hne Hc)
      as [Heval Hshape].
    eexists. split; [exact Heval|]. split; [exact Hshape|].
    intros _ _. reflexivity.
  - intros self x0 rest Hco Hcalls Hconv Hne Hc.
    rewrite evaluate_async_as_elementwise by assumption.
    assert (Hcalls' : forall f x,
               In f (objective_functions (synchronous_form self)) ->
               In x (x0 :: rest) -> is_ok (f x) = true).
    { intros f' x Hf' Hx. simpl in Hf'. apply in_map_iff in Hf'.
      destruct Hf' as (f & <- & Hf). apply Hcalls; assumption. }
    assert (Hconv' : forall f,
               In f (objective_functions (synchronous_form self)) ->
               is_ok (np_array_cells (map (cell_value f) (x0 :: rest)))
               = true).
    { intros f' Hf'. simpl in Hf'. apply in_map_iff in Hf'.
      destruct Hf' as (f & <- & Hf). apply Hconv. exact Hf. }
    destruct (evaluate_elementwise_general (synchronous_form self)
                Hcalls' Hconv' Hne Hc) as [Heval Hshape].
    eexists. split; [exact Heval|]. split; [exact Hshape|].
    intros _ _. reflexivity.
  - intros self items f k rows Hitems Hfs Hf Hk Hrows Hc.
    assert (Hne : rows <> []).
    { intros ->. destruct items; [contradiction | discriminate]. }
    rewrite (evaluate_single_table self items Hfs Hf Hk Hne).
    destruct (@mul_directions_table k rows (directions self) Hc
                (proj1 (same_length_Forall k rows) Hk)) as [Hmul Hshape].
    rewrite Hrows in Hshape.
    eexists. split; [exact Hmul|]. split; [exact Hshape|].
    intros _ _. reflexivity.
  - intros self items batches f k Hitems Hsize Hfs Hco Hb Htables Hc.
    destruct (batches_chunks_concat Hitems Hsize Hb) as [Hcat _].
    assert (Hlen : length (concat (map (table_of f) batches)) = length items).
    { rewrite length_concat_map; [rewrite Hcat; reflexivity|].
      intros batch Hin. destruct (Htables batch Hin) as (rows & Hf & _ & Hl).
      unfold table_of. rewrite Hf. exact Hl. }
    assert (Hne : concat (map (table_of f) batches) <> []).
    { intros E. rewrite E in Hlen. destruct items; [contradiction|].
      discriminate. }
    assert (Hall : Forall (fun rows => same_length k rows = true)
                          (map (table_of f) batches)).
    { apply Forall_forall. intros rows Hrows. apply in_map_iff in Hrows.
      destruct Hrows as (batch & <- & Hin).
      destruct (Htables batch Hin) as (rows & Hf & Hk & _).
      unfold table_of. rewrite Hf. exact Hk. }
    rewrite (evaluate_batch_table self items (k:=k) Hfs Hco Hb); [|
      intros batch Hin; destruct (Htables batch Hin) as (rows & Hf & Hk & _);
      exists rows; split; assumption | exact Hne].
    cbn [snd].
    destruct (@mul_directions_table
                k (concat (map (table_of f) batches))
                (directions (base self)) Hc
                (proj1 (same_length_Forall _ _) (same_length_concat k Hall)))
      as [Hmul Hshape].
    rewrite Hlen in Hshape.
    eexists. split; [exact Hmul|]. split; [exact Hshape|].
    intros _ _. reflexivity.
Qed.

Lemma fitness_matrix_shape_witness :
  exists rows',
    evaluate (mkObjective [f_table] 1 [1%Z] ["objective_0"%string] None)
             [[1; 1]; [2; 2]; [3; 0]]%Z
    = Ok (Mat 2 rows') /\
    np_shape (Mat 2 rows') = Ok [3; 2] /\
    (unit_directions [1%Z] -> rows_fit [[8; 32]; [32; 18]; [36; 29]]%Z ->
     rows' = [[8; 32]; [32; 18]; [36; 29]]%Z).
Proof.
  apply (proj1 (proj2 (proj2 fitness_matrix_shape))
           (mkObjective [f_table] 1 [1%Z] ["objective_0"%string] None)
           [[1; 1]; [2; 2]; [3; 0]]%Z f_table 2
           [[8; 32]; [32; 18]; [36; 29]]%Z).
  - discriminate.
  - reflexivity.
  - reflexivity.
  - reflexivity.
  - reflexivity.
  - reflexivity.
Defined.

(** * Further properties of the code *)

(** ** Construction *)

(** X1. When every argument is acceptable (directions, if given, are
    [num_objectives] tokens among "minimize" and "maximize"; names, if
    given, are [num_objectives] names) the constructor succeeds and stores
    [+1] for each "minimize" and [-1] for each "maximize", in order. *)
Theorem init_accepts_valid_arguments :
  forall (F : Type) (functions : F + list F) (num : option Z)
         (dirs names : option (list string)) (front : option pareto_front),
    (forall ds, dirs = Some ds ->
                py_len ds = resolve_num_objectives functions num /\
                Forall (fun d => d = "minimize"%string \/ d = "maximize"%string)
                       ds) ->
    (forall ns, names = Some ns ->
                py_len ns = resolve_num_objectives functions num) ->
    init functions num dirs names front
    = Ok (mkObjective
            (as_function_list functions)
            (resolve_num_objectives functions num)
            (match dirs with
             | None => py_repeat 1%Z (resolve_num_objectives functions num)
             | Some ds => map sign_of ds
             end)
            (match names with
             | None => map (fun i => ("objective_" ++ str_of_nat i)%string)
                           (seq 0 (Z.to_nat
                                     (resolve_num_objectives functions num)))
             | Some ns => ns
             end)
            front).
Proof.
  intros F functions num dirs names front Hd Hn. unfold init.
  destruct dirs as [ds|].
  - destruct (Hd ds eq_refl) as [Hlen Hvalid].
    rewrite Hlen, Z.eqb_refl, (parse_directions_valid Hvalid). cbn [bind].
    destruct names as [ns|]; [|reflexivity].
    rewrite (Hn ns eq_refl), Z.eqb_refl. reflexivity.
  - cbn [bind]. destruct names as [ns|]; [|reflexivity].
    rewrite (Hn ns eq_refl), Z.eqb_refl. reflexivity.
Qed.

Lemma init_accepts_valid_arguments_witness :
  init (inr [f_item; g_item]) None
       (Some ["maximize"; "minimize"]%string) (Some ["f"; "g"]%string) None
  = Ok (mkObjective [f_item; g_item] 2 [-1; 1]%Z ["f"; "g"]%string None).
Proof.
  apply (@init_accepts_valid_arguments elementwise (inr [f_item; g_item]) None
           (Some ["maximize"; "minimize"]%string) (Some ["f"; "g"]%string)
           None).
  - intros ds E. injection E as <-. split; [reflexivity|].
    constructor; [right; reflexivity|].
    constructor; [left; reflexivity|]. constructor.
  - intros ns E. injection E as <-. reflexivity.
Defined.

(** X2. With acceptable directions (or none), a list of names whose length
    differs from [num_objectives] makes the constructor raise the
    [ValueError] of lines 32-34, which reports both lengths. *)
Theorem init_rejects_wrong_names :
  forall (F : Type) (functions : F + list F) (num : option Z)
         (dirs : option (list string)) (ns : list string)
         (front : option pareto_front),
    (forall ds, dirs = Some ds ->
                py_len ds = resolve_num_objectives functions num /\
                Forall (fun d => d = "minimize"%string \/ d = "maximize"%string)
                       ds) ->
    py_len ns <> resolve_num_objectives functions num ->
    init functions num dirs (Some ns) front
    = Raise (ValueError (NamesMismatch
                           (py_len ns)
                           (resolve_num_objectives functions num))).
Proof.
  intros F functions num dirs ns front Hd Hn. unfold init.
  apply Z.eqb_neq in Hn.
  destruct dirs as [ds|].
  - destruct (Hd ds eq_refl) as [Hlen Hvalid].
    rewrite Hlen, Z.eqb_refl, (parse_directions_valid Hvalid). cbn [bind].
    rewrite Hn. reflexivity.
  - cbn [bind]. rewrite Hn. reflexivity.
Qed.

Lemma init_rejects_wrong_names_witness :
  init (inr [f_item; g_item]) None None (Some ["f"]%string) None
  = Raise (ValueError (NamesMismatch 1 2)).
Proof.
  apply (@init_rejects_wrong_names elementwise (inr [f_item; g_item]) None
           None ["f"]%string None).
  - intros ds E. discriminate.
  - vm_compute. discriminate.
Defined.

(** ** Element-wise evaluation *)

Lemma nth_error_zip_mul (xs ds : list Z) (j : nat) (x d : Z) :
  nth_error xs j = Some x -> nth_error ds j = Some d ->
  nth_error (zip_mul xs ds) j = Some (x * d)%Z.
Proof.
  revert ds j. induction xs as [|y xs IH]; intros ds j Hx Hd.
  - destruct j; discriminate.
  - destruct ds as [|d' ds]; [destruct j; discriminate|].
    destruct j as [|j]; simpl in *.
    + injection Hx as ->. injection Hd as ->. reflexivity.
    + apply IH; assumption.
Qed.

(** X3. [ElementWiseObjective], built with one direction token per
    function and evaluating functions that return one number per candidate,
    each within the 64-bit range:
    entry [(i, j)] of the result is the value of function [j] on candidate
    [i] when token [j] is "minimize", and its negation when it is
    "maximize". *)
Theorem elementwise_entry_sign :
  forall (fs : list elementwise) (tokens : list string)
         (names : option (list string)) (front : option pareto_front)
         (self : Objective elementwise) (items : list candidate),
    init (inr fs) None (Some tokens) names front = Ok self ->
    fs <> [] ->
    (forall f x, In f fs -> In x items ->
                 exists v, f x = Ok (Num v) /\ fits_int64 v) ->
    exists rows,
      evaluate_elementwise self items = Ok (Mat (length fs) rows) /\
      length rows = length items /\
      forall i j x f tok,
        nth_error items i = Some x ->
        nth_error fs j = Some f ->
        nth_error tokens j = Some tok ->
        exists row,
          nth_error rows i = Some row /\
          nth_error row j
          = Some (if String.eqb tok "minimize" then scalar_value f x
                  else (- scalar_value f x)%Z).
Proof.
  intros fs tokens names front self items Hinit Hfs Hfit.
  assert (Hcalls : forall f x, In f fs -> In x items ->
                               exists v, f x = Ok (Num v)).
  { intros f x Hf Hx. destruct (Hfit f x Hf Hx) as (v & Hv & _).
    exists v. exact Hv. }
  destruct (init_ok_inv _ _ _ _ _ Hinit) as (Hfuns & Hnum & [Hlen Hdirs] & _).
  simpl in Hfuns.
  assert (Hd : length (directions self) = length (objective_functions self)).
  { rewrite Hdirs, Hfuns, length_map.
    rewrite Hnum in Hlen. unfold resolve_num_objectives, py_len in Hlen.
    simpl in Hlen. lia. }
  exists (map (signed_row fs (directions self)) items).
  split; [|split].
  - rewrite evaluate_elementwise_scalar; rewrite ?Hfuns; try assumption.
    + reflexivity.
    + rewrite <- Hfuns. exact Hd.
  - apply length_map.
  - intros i j x f tok Hx Hf Htok.
    exists (signed_row fs (directions self) x). split.
    + apply map_nth_error. exact Hx.
    + unfold signed_row.
      rewrite (@nth_error_zip_mul _ _ j (scalar_value f x) (sign_of tok)).
      * f_equal. unfold sign_of.
        destruct (String.eqb tok "minimize"); lia.
      * apply (map_nth_error (fun f0 => scalar_value f0 x)). exact Hf.
      * rewrite Hdirs. apply map_nth_error. exact Htok.
Qed.

Lemma elementwise_entry_sign_witness :
  exists rows,
    evaluate_elementwise
      (mkObjective [f_item; g_item] 2 [1; -1]%Z
                   ["objective_0"; "objective_1"]%string None)
      sample_items
    = Ok (Mat 2 rows) /\
    length rows = 3 /\
    forall i j x f tok,
      nth_error sample_items i = Some x ->
      nth_error [f_item; g_item] j = Some f ->
      nth_error ["minimize"; "maximize"]%string j = Some tok ->
      exists row,
        nth_error rows i = Some row /\
        nth_error row j
        = Some (if String.eqb tok "minimize" then scalar_value f x
                else (- scalar_value f x)%Z).
Proof.
  apply (@elementwise_entry_sign [f_item; g_item]
           ["minimize"; "maximize"]%string None None).
  - reflexivity.
  - discriminate.
  - intros f x [<-|[<-|[]]] [<-|[<-|[<-|[]]]];
      eexists; (split; [reflexivity | split; reflexivity]).
Defined.

(** X4. [AsyncElementWiseObjective] whose functions are all coroutine
    functions, when every call succeeds, returns exactly what
    [ElementWiseObjective] returns for the same functions called
    synchronously, whatever the order in which the tasks finish. *)
Theorem async_matches_elementwise :
  forall (self : Objective async_elementwise) (items : list candidate),
    Forall (fun f => is_coroutine f = true) (objective_functions self) ->
    (forall f x, In f (objective_functions self) -> In x items ->
                 is_ok (awaited f x) = true) ->
    snd (evaluate_async self items)
    = evaluate_elementwise (synchronous_form self) items.
Proof.
  intros self items Hco Hcalls.
  apply evaluate_async_as_elementwise; assumption.
Qed.

Lemma async_matches_elementwise_witness :
  snd (evaluate_async
         (mkObjective [f_item_async; g_item_async] 2 [1; -1]%Z
                      ["objective_0"; "objective_1"]%string None)
         sample_items)
  = Ok (Mat 2 [[0; -25]; [25; 0]; [4; -9]]%Z).
Proof.
  rewrite (@async_matches_elementwise
             (mkObjective [f_item_async; g_item_async] 2 [1; -1]%Z
                          ["objective_0"; "objective_1"]%string None)
             sample_items).
  - reflexivity.
  - repeat constructor.
  - intros f x [<-|[<-|[]]] _; reflexivity.
Defined.

(** X5. Whenever [ElementWiseObjective.evaluate] returns, it returns one
    row per candidate (or the empty rank-1 array, when the functions
    produce no column at all). *)
Theorem elementwise_one_row_per_candidate :
  forall (self : Objective elementwise) (items : list candidate) (a : ndarray),
    evaluate_elementwise self items = Ok a ->
    a = Vec [] \/
    exists n rows, a = Mat n rows /\ length rows = length items.
Proof.
  intros self items a H. unfold evaluate_elementwise in H.
  bind_inv H. rename a0 into stacked, Ha into Hstack.
  unfold stack_elementwise in Hstack.
  bind_inv Hstack. rename a0 into result, Ha into Hresult.
  rewrite foldM_cells in Hstack.
  bind_inv Hstack. rename a0 into solutions, Ha into Hsols.
  bind_inv Hsols. rename a0 into arrays, Ha into Harrays.
  injection Hsols as <-. simpl app in Hstack.
  bind_inv Hstack. rename a0 into arr, Ha into Harr.
  injection Hstack as <-.
  assert (Hcols : Forall (fun c => length c = length items)
                         (concat (map columns_of arrays))).
  { apply Forall_concat. apply Forall_forall. intros cols Hin.
    apply in_map_iff in Hin. destruct Hin as (arr0 & <- & Hin0).
    apply mapM_Forall2 in Harrays. apply mapM_Forall2 in Hresult.
    assert (Hr : exists r, In r result /\ np_array_cells r = Ok arr0).
    { clear -Harrays Hin0. induction Harrays as [|r a rs arrs Hr _ IH].
      - destruct Hin0.
      - destruct Hin0 as [<-|Hin0].
        + exists r. split; [left; reflexivity | exact Hr].
        + destruct (IH Hin0) as (r' & Hr' & E).
          exists r'. split; [right; exact Hr' | exact E]. }
    destruct Hr as (r & Hr & Hconv).
    assert (Hlen : length r = length items).
    { clear -Hresult Hr. induction Hresult as [|f r0 fs rs Hf _ IH].
      - destruct Hr.
      - destruct Hr as [<-|Hr]; [eapply mapM_length; exact Hf | auto]. }
    rewrite <- Hlen. apply np_array_cells_columns. exact Hconv. }
  destruct (np_array_transpose_rows Hcols Harr) as [[_ ->]|[_ Ht]].
  - left. simpl in H. unfold broadcast_row, compatible in H. simpl in H.
    destruct (length (directions self)) as [|[|d]]; simpl in H;
      try discriminate; injection H as <-; reflexivity.
  - right. rewrite Ht in H. apply mul_directions_rows in H.
    eexists. eexists. split; [exact H|].
    rewrite !length_map, length_seq. reflexivity.
Qed.

Lemma elementwise_one_row_per_candidate_witness :
  Mat 2 [[8; -32]; [32; -18]; [36; -29]]%Z = Vec [] \/
  exists n rows,
    Mat 2 [[8; -32]; [32; -18]; [36; -29]]%Z = Mat n rows /\
    length rows = length [[1; 1]; [2; 2]; [3; 0]]%Z.
Proof.
  apply (@elementwise_one_row_per_candidate
           (mkObjective [f_pair] 2 [1; -1]%Z
                        ["objective_0"; "objective_1"]%string None)
           [[1; 1]; [2; 2]; [3; 0]]%Z).
  reflexivity.
Defined.

(** ** Consistency between the variants *)

(** Transposing twice gives back a well-shaped table. *)
Lemma transpose_twice (k : nat) (rows : list (list Z)) :
  same_length k rows = true ->
  map (column (map (column rows) (seq 0 k))) (seq 0 (length rows)) = rows.
Proof.
  intros Hk.
  change (map (column rows) (seq 0 k))
    with (map (fun j => map (fun r => nth j r 0%Z) rows) (seq 0 k)).
  rewrite (transpose_table (fun j r => nth j r 0%Z) (seq 0 k) rows).
  rewrite <- (map_id rows) at 2. apply map_ext_in. intros r Hr.
  apply same_length_Forall in Hk. rewrite Forall_forall in Hk.
  rewrite <- (Hk r Hr). apply map_nth_seq.
Qed.

Lemma np_array_cells_rows {A} (g : A -> list Z) (k : nat) (xs : list A) :
  xs <> [] ->
  (forall x, In x xs -> length (g x) = k) ->
  np_array_cells (map (fun x => Row (g x)) xs) = Ok (Mat k (map g xs)).
Proof.
  intros Hne Hk.
  assert (H : mapM (as_row k) (map (fun x => Row (g x)) xs) = Ok (map g xs)).
  { rewrite mapM_map. apply mapM_ok_map. intros x Hx. simpl.
    rewrite (Hk x Hx), Nat.eqb_refl. reflexivity. }
  destruct xs as [|x xs]; [contradiction|].
  unfold np_array_cells. simpl map at 1. cbv beta iota.
  rewrite (Hk x (or_introl eq_refl)). rewrite H. reflexivity.
Qed.

(** X6. Cross-variant consistency where it holds: a single function that
    returns, for each candidate, a row of [k >= 1] objective values gives
    the same fitness matrix through [Objective] (called once on the
    population, returning the table of rows) and through
    [ElementWiseObjective] (called once per candidate). *)
Theorem single_table_function_consistent :
  forall (f_vec : vectorized) (f_it : elementwise) (g : candidate -> list Z)
         (k : nat) (n : Z) (ds : list Z) (names : list string)
         (front : option pareto_front) (items : list candidate),
    items <> [] ->
    1 <= k ->
    (forall x, In x items -> length (g x) = k) ->
    f_vec items = Ok (Mat k (map g items)) ->
    (forall x, In x items -> f_it x = Ok (Row (g x))) ->
    evaluate (mkObjective [f_vec] n ds names front) items
    = evaluate_elementwise (mkObjective [f_it] n ds names front) items.
Proof.
  intros f_vec f_it g k n ds names front items Hne Hk Hg Hvec Hit.
  assert (Hrows : same_length k (map g items) = true)
    by (apply same_length_map; exact Hg).
  assert (Hrne : map g items <> [])
    by (destruct items; [contradiction | discriminate]).
  rewrite (@evaluate_single_table (mkObjective [f_vec] n ds names front)
             items f_vec k (map g items) eq_refl Hvec Hrows Hrne).
  unfold evaluate_elementwise, stack_elementwise.
  cbn [objective_functions directions]. simpl mapM.
  rewrite (mapM_ok_map f_it (fun x => Row (g x))) by exact Hit.
  cbn [bind]. rewrite foldM_cells. simpl mapM.
  rewrite (np_array_cells_rows g Hne Hg). cbn [bind].
  simpl concat. simpl app. rewrite app_nil_r.
  unfold columns_of. simpl rows_of.
  set (cols := map (column (map g items)) (seq 0 k)).
  assert (Hcols : np_array cols = Ok (Mat (length items) cols)).
  { unfold cols. destruct k as [|k']; [lia|].
    unfold np_array. simpl seq. simpl map at 1. cbv iota.
    rewrite column_length, length_map.
    change (column (map g items) 0 :: map (column (map g items)) (seq 1 k'))
      with (map (column (map g items)) (seq 0 (S k'))).
    rewrite same_length_map; [reflexivity|].
    intros j _. rewrite column_length, length_map. reflexivity. }
  rewrite Hcols. cbn [bind]. unfold transpose.
  replace (length cols) with k
    by (unfold cols; rewrite length_map, length_seq; reflexivity).
  replace (map (column cols) (seq 0 (length items))) with (map g items).
  - reflexivity.
  - unfold cols. rewrite <- (length_map g items).
    symmetry. apply transpose_twice. exact Hrows.
Qed.

Lemma single_table_function_consistent_witness :
  evaluate (mkObjective [f_table] 2 [1; -1]%Z
                        ["objective_0"; "objective_1"]%string None)
           [[1; 1]; [2; 2]; [3; 0]]%Z
  = evaluate_elementwise
      (mkObjective [f_pair] 2 [1; -1]%Z
                   ["objective_0"; "objective_1"]%string None)
      [[1; 1]; [2; 2]; [3; 0]]%Z.
Proof.
  apply (@single_table_function_consistent f_table f_pair
           (fun p => [ (4 * nth 0 p 0 * nth 0 p 0
                        + 4 * nth 1 p 0 * nth 1 p 0)%Z ;
                       ((nth 0 p 0 - 5) * (nth 0 p 0 - 5)
                        + (nth 1 p 0 - 5) * (nth 1 p 0 - 5))%Z ])
           2).
  - discriminate.
  - lia.
  - reflexivity.
  - reflexivity.
  - reflexivity.
Defined.

(** ** Batches: edge cases and dispatch *)

Lemma py_range_empty_negative_step (stop step : Z) :
  (0 <= stop)%Z -> (step < 0)%Z -> py_range 0 stop step = [].
Proof.
  intros Hstop Hstep. unfold py_range.
  destruct (Z.ltb_spec 0 step); [lia|].
  destruct (Z.ltb_spec step 0); [|lia].
  replace (Z.to_nat ((0 - stop - step - 1) / - step)) with 0; [reflexivity|].
  assert ((0 - stop - step - 1) / - step < 1)%Z
    by (apply Z.div_lt_upper_bound; lia).
  lia.
Qed.

Lemma make_batches_nil {A} (size : Z) :
  size <> 0%Z -> make_batches (@nil A) size = Ok [].
Proof.
  intros Hsize. unfold make_batches, py_mod, py_len. simpl length.
  destruct (Z.eqb_spec size 0) as [E|_]; [contradiction|].
  cbn [bind]. rewrite Z.mod_0_l by exact Hsize. simpl.
  unfold py_range.
  destruct (Z.ltb_spec 0 size).
  - rewrite Z.div_small by lia. reflexivity.
  - destruct (Z.ltb_spec size 0); [|reflexivity].
    rewrite Z.div_small by lia. reflexivity.
Qed.

(** X7. [BatchObjective.evaluate] on an empty population, with a non-zero
    batch size and a coroutine function first in the list, builds no batch,
    dispatches nothing, and raises the [ValueError] of [np.concatenate]
    on an empty sequence. *)
Theorem batch_empty_population_raises :
  forall (self : BatchObjective) (f : batched) (rest : list batched),
    batch_size self <> 0%Z ->
    objective_functions (base self) = f :: rest ->
    is_coroutine f = true ->
    evaluate_batch self [] = ([], Raise (ValueError ConcatenateEmpty)).
Proof.
  intros self f rest Hsize Hfs Hco.
  rewrite (evaluate_batch_unfold self [] (make_batches_nil Hsize)).
  rewrite Hfs. simpl. unfold batch_async_evaluate. rewrite Hco. reflexivity.
Qed.

Lemma batch_empty_population_raises_witness :
  evaluate_batch
    (mkBatchObjective
       (mkObjective [f_flat_async] 1 [1%Z] ["objective_0"%string] None) 2)
    []
  = ([], Raise (ValueError ConcatenateEmpty)).
Proof.
  apply (@batch_empty_population_raises
           (mkBatchObjective
              (mkObjective [f_flat_async] 1 [1%Z] ["objective_0"%string] None)
              2)
           f_flat_async []).
  - simpl. discriminate.
  - reflexivity.
  - reflexivity.
Defined.

(** X8. With a negative batch size no candidate is ever put in a batch:
    the batches are the empty list when the size divides the population
    size, and a single empty batch otherwise. *)
Theorem negative_batch_size_drops_candidates :
  forall (A : Type) (items : list A) (size : Z),
    (size < 0)%Z ->
    make_batches items size
    = Ok (if (py_len items mod size =? 0)%Z then [] else [[]]).
Proof.
  intros A items size Hsize. unfold make_batches, py_mod.
  destruct (Z.eqb_spec size 0) as [E|_]; [lia|]. cbn [bind].
  assert (Hm := Z.mod_neg_bound (py_len items) size Hsize).
  assert (Hn : (0 <= py_len items)%Z) by (unfold py_len; lia).
  destruct (Z.eqb_spec (py_len items mod size) 0) as [E|E].
  - rewrite py_range_empty_negative_step by lia. reflexivity.
  - rewrite py_range_empty_negative_step by lia. simpl. do 2 f_equal.
    unfold py_slice_from, py_slice, clamp_index.
    destruct (Z.ltb_spec (py_len items - py_len items mod size) 0); [lia|].
    destruct (Z.ltb_spec (py_len items) 0); [lia|].
    rewrite (Z.min_r (py_len items - py_len items mod size) (py_len items))
      by lia.
    rewrite Z.min_id, Z.sub_diag. reflexivity.
Qed.

Lemma negative_batch_size_drops_candidates_witness :
  make_batches sample_items (-2) = Ok [[]].
Proof.
  apply (@negative_batch_size_drops_candidates candidate sample_items (-2)).
  lia.
Defined.

Lemma bind_is_ok {A B} (c : outcome A) (k : A -> outcome B) :
  is_ok (bind c k) = true -> is_ok c = true.
Proof. destruct c; [reflexivity | discriminate]. Qed.

(** X9. A successful evaluation of an asynchronous variant has called
    every function, all of them coroutine functions, once on every batch
    ([BatchObjective]) or once on every candidate
    ([AsyncElementWiseObjective]): function after function in declaration
    order, and for each function in population order. *)
Theorem successful_evaluation_dispatches_every_call :
  (forall (self : BatchObjective) (items : list candidate) batches tr a,
      make_batches items (batch_size self) = Ok batches ->
      evaluate_batch self items = (tr, Ok a) ->
      tr = dispatch_all 0 (length (objective_functions (base self))) batches /\
      Forall (fun f => is_coroutine f = true)
             (objective_functions (base self)))
  /\
  (forall (self : Objective async_elementwise) (items : list candidate) tr a,
      evaluate_async self items = (tr, Ok a) ->
      tr = dispatch_all 0 (length (objective_functions self)) items /\
      Forall (fun f => is_coroutine f = true) (objective_functions self)).
Proof.
  split.
  - intros self items batches tr a Hb H.
    rewrite (evaluate_batch_unfold self items Hb) in H.
    injection H as Htr Hout.
    assert (Hok : is_ok (snd (batch_loop 0 (objective_functions (base self))
                                         batches [] [])) = true).
    { eapply bind_is_ok. eapply bind_is_ok. rewrite Hout. reflexivity. }
    rewrite batch_loop_group in Htr, Hok.
    destruct (group_loop_trace np_concatenate
                (fun _ => ValueError BatchNeedsAsync) 0
                (objective_functions (base self)) batches [] [])
      as (n & _ & Hfst & Hall & Hn).
    rewrite (Hn Hok) in Hfst, Hall. rewrite firstn_all in Hall.
    split; [|exact Hall]. rewrite <- Htr. exact Hfst.
  - intros self items tr a H.
    rewrite evaluate_async_unfold in H. injection H as Htr Hout.
    assert (Hok : is_ok (snd (async_loop 0 (objective_functions self)
                                         items [] [])) = true).
    { eapply bind_is_ok. eapply bind_is_ok. rewrite Hout. reflexivity. }
    rewrite async_loop_group in Htr, Hok.
    destruct (group_loop_trace np_array_cells
                (fun i => ValueError (AsyncNeedsAsync i)) 0
                (objective_functions self) items [] [])
      as (n & _ & Hfst & Hall & Hn).
    rewrite (Hn Hok) in Hfst, Hall. rewrite firstn_all in Hall.
    split; [|exact Hall]. rewrite <- Htr. exact Hfst.
Qed.

Lemma successful_evaluation_dispatches_every_call_witness :
  [(0, [[0]; [5]]%Z); (0, [[2]]%Z)]
  = dispatch_all 0 1 [[[0]; [5]]; [[2]]]%Z /\
  Forall (fun f : batched => is_coroutine f = true) [f_flat_async].
Proof.
  apply (proj1 successful_evaluation_dispatches_every_call
           (mkBatchObjective
              (mkObjective [f_flat_async] 1 [1%Z] ["objective_0"%string] None)
              2)
           sample_items [[[0]; [5]]; [[2]]]%Z
           [(0, [[0]; [5]]%Z); (0, [[2]]%Z)] (Mat 3 [[0; 25; 4]]%Z)).
  - reflexivity.
  - reflexivity.
Defined.

Lemma np_concatenate_vecs (vs : list (list Z)) :
  vs <> [] -> np_concatenate (map Vec vs) = Ok (Vec (concat vs)).
Proof.
  intros Hne. unfold np_concatenate.
  replace (forallb well_shaped (map Vec vs)) with true.
  - destruct vs as [|v vs]; [contradiction|].
    simpl negb. cbv iota. simpl map at 1. cbv iota.
    change (Vec v :: map Vec vs) with (map Vec (v :: vs)).
    rewrite mapM_map. rewrite (mapM_ok_map _ (fun v0 => v0)).
    + rewrite map_id. reflexivity.
    + reflexivity.
  - symmetry. apply forallb_forall. intros a Ha.
    apply in_map_iff in Ha. destruct Ha as (v & <- & _). reflexivity.
Qed.

(** X10. Batching does not change the result for functions that compute
    one value per candidate, candidate by candidate: for a positive batch
    size and a non-empty population, [BatchObjective.evaluate] returns what
    [Objective.evaluate] returns for the same functions called on the whole
    population. *)
Theorem batching_is_transparent :
  forall (self : BatchObjective) (items : list candidate),
    items <> [] ->
    (1 <= batch_size self)%Z ->
    Forall (fun f => is_coroutine f = true)
           (objective_functions (base self)) ->
    (forall f its, In f (objective_functions (base self)) ->
                   awaited f its = Ok (Vec (map (flat_value f) its))) ->
    snd (evaluate_batch self items)
    = evaluate (synchronous_form (base self)) items.
Proof.
  intros self items Hne Hsize Hco Hflat.
  destruct (make_batches items (batch_size self)) as [batches|e] eqn:Hb.
  2:{ exfalso. set (b := Z.to_nat (batch_size self)).
      assert (Es : batch_size self = Z.of_nat b) by (unfold b; lia).
      rewrite Es, make_batches_chunks in Hb by (unfold b; lia).
      discriminate. }
  destruct (batches_chunks_concat Hne Hsize Hb) as [Hcat Hbne].
  rewrite (evaluate_batch_unfold self items Hb). cbn [snd].
  rewrite batch_loop_group, group_loop_all_ok.
  - unfold evaluate, stack, synchronous_form.
    cbn [objective_functions directions]. rewrite mapM_map.
    rewrite (mapM_ext_in
               (fun f => outputs <- mapM (awaited f) batches ;;
                         np_concatenate outputs)
               (fun f => awaited f items)).
    + assert (E : forall (M : outcome (list ndarray))
                         (K : list ndarray -> outcome ndarray),
                 (result <- (arrays <- M ;; Ok ([] ++ arrays)) ;; K result)
                 = (result <- M ;; K result))
        by (intros [|] K; reflexivity).
      rewrite E. reflexivity.
    + intros f Hf.
      rewrite (mapM_ok_map _ (fun batch => Vec (map (flat_value f) batch)))
        by (intros batch _; apply Hflat; exact Hf).
      cbn [bind]. rewrite <- (map_map (map (flat_value f)) Vec).
      rewrite np_concatenate_vecs
        by (destruct batches; [contradiction | discriminate]).
      rewrite <- concat_map, Hcat. symmetry. apply Hflat. exact Hf.
  - exact Hco.
  - intros f batch Hf _. rewrite (Hflat f batch Hf). reflexivity.
Qed.

Lemma batching_is_transparent_witness :
  snd (evaluate_batch
         (mkBatchObjective
            (mkObjective [f_flat_async] 1 [1%Z] ["objective_0"%string] None)
            2)
         sample_items)
  = Ok (Mat 3 [[0; 25; 4]]%Z).
Proof.
  rewrite (@batching_is_transparent
             (mkBatchObjective
                (mkObjective [f_flat_async] 1 [1%Z] ["objective_0"%string]
                             None) 2)
             sample_items).
  - reflexivity.
  - discriminate.
  - simpl. lia.
  - repeat constructor.
  - intros f its [<-|[]]. unfold awaited, f_flat_async, f_flat. simpl.
    f_equal.
Defined.

(** ** Introspection *)

(** X12. [type()] tells the four variants apart: two variants with the
    same name are the same variant. *)
Theorem type_identifies_variant :
  forall v w : variant, type v = type w -> v = w.
Proof.
  intros [] []; simpl; intros H; try reflexivity; discriminate.
Qed.

Lemma type_identifies_variant_witness :
  VBatchObjective = VBatchObjective.
Proof.
  apply (type_identifies_variant VBatchObjective VBatchObjective).
  reflexivity.
Defined.
